(** * Gutestrap: the plugin's self-update glue (class [Gutestrap_Update])

    A shallow embedding of the PHP class [Gutestrap\Gutestrap_Update]:
    the remote header fetch, the rewrite of the host's [update_plugins]
    transient, the plugin-details view and the post-install relocation.

    PHP values are a small inductive type; the host (WordPress) and the PHP
    builtins the class calls are fields of an environment record; the
    methods run in a state-and-exception monad over the singleton's fields
    and a trace of the effects requested from the host. *)

From Stdlib Require Import ZArith Ascii String.
From stdpp Require Import gmap strings list.

Local Open Scope string_scope.

#[local] Set Warnings "-register-all".

(** ** PHP values *)

Inductive value : Type :=
| VNull
| VBool (b : bool)
| VStr (s : string)
| VArr (a : list (string * value))
| VObj (o : list (string * value)).

(** A PHP array with string keys, in insertion order. *)
Abbreviation php_array := (list (string * value)).

(** What [get_plugin_data] hands back: header name to header text. *)
Abbreviation headers := (list (string * string)).

Fixpoint assoc {A : Type} (k : string) (a : list (string * A)) : option A :=
  match a with
  | [] => None
  | (k', v) :: rest => if String.eqb k k' then Some v else assoc k rest
  end.

(** [$a[k]] read on an array: a missing key reads as null (with a warning). *)
Definition index (a : php_array) (k : string) : value :=
  match assoc k a with Some v => v | None => VNull end.

(** [$h[k]] read on a header array. *)
Definition header (h : headers) (k : string) : value :=
  match assoc k h with Some s => VStr s | None => VNull end.

(** [$a[k] = v]: overwrite in place, or append a new key. *)
Fixpoint array_set (a : php_array) (k : string) (v : value) : php_array :=
  match a with
  | [] => [(k, v)]
  | (k', v') :: rest =>
      if String.eqb k k' then (k', v) :: rest else (k', v') :: array_set rest k v
  end.

(** [$o->k] read: an undefined property (or a non-object) reads as null. *)
Definition prop (o : value) (k : string) : value :=
  match o with
  | VObj ps => index ps k
  | _ => VNull
  end.

(** [$o->k = v] on an object. *)
Definition prop_set (o : value) (k : string) (v : value) : value :=
  match o with
  | VObj ps => VObj (array_set ps k v)
  | other => other
  end.

(** [isset(v)]: defined and not null. *)
Definition isset (v : value) : bool :=
  match v with VNull => false | _ => true end.

(** [is_array(v)]. *)
Definition is_array (v : value) : bool :=
  match v with VArr _ => true | _ => false end.

(** Truth value of an array in a condition: non-empty. *)
Definition truthy {A : Type} (a : list A) : bool :=
  match a with [] => false | _ => true end.

(** [v === s] for a string literal or string constant [s]. *)
Definition identical_str (v : value) (s : string) : bool :=
  match v with VStr s' => String.eqb s' s | _ => false end.

(** The double-quote character, for the HTML literals of the class. *)
Definition dq : string := String (Ascii.ascii_of_nat 34) EmptyString.

(** ** The host's update-check aggregate

    The [update_plugins] site transient: a [stdClass] whose properties may
    be absent. [checked], [response] and [no_update] are arrays keyed by
    plugin basename. *)

Record update_plugins : Type := {
  last_checked : option Z;
  checked : option (gmap string value);
  response : option (gmap string value);
  no_update : option (gmap string value)
}.

(** [isset($t->field)]. *)
Definition isset_field {A : Type} (field : option A) : bool :=
  match field with Some _ => true | None => false end.

(** [isset($t->field[k])]. *)
Definition isset_at (field : option (gmap string value)) (k : string) : bool :=
  match field with
  | Some m => match m !! k with Some v => isset v | None => false end
  | None => false
  end.

(** [$t->response[k] = v]. *)
Definition set_response (k : string) (v : value) (t : update_plugins) : update_plugins :=
  {| last_checked := last_checked t;
     checked := checked t;
     response := Some (<[k := v]> (default ∅ (response t)));
     no_update := no_update t |}.

(** [unset($t->no_update[k])]. *)
Definition unset_no_update (k : string) (t : update_plugins) : update_plugins :=
  {| last_checked := last_checked t;
     checked := checked t;
     response := response t;
     no_update := delete k <$> no_update t |}.

(** ** Effects and the environment *)

(** What the class asks of the host, in the order asked. *)
Inductive event : Type :=
| EFetch (url : string)
| EMove (source : value) (destination : string) (moved : bool)
| EActivate (plugin : string).

(** Constants defined elsewhere in the plugin, the global
    [$gutestrap_plugin_data], and the WordPress functions and PHP builtins
    the class calls. The host's answers may depend on what happened so far.
    [version_compare] is the two-argument form of the builtin (negative,
    zero or positive); called with the operator [>] it tests for a
    positive result. [translate] is WordPress's [__]. *)
Record Env : Type := {
  GUTESTRAP_PLUGIN_FILE : string;
  GUTESTRAP_PLUGIN_BASENAME : string;
  WP_PLUGIN_DIR : string;
  DIRECTORY_SEPARATOR : string;
  gutestrap_plugin_data : headers;
  get_plugin_data : list event -> string -> headers;
  is_plugin_active : list event -> string -> bool;
  wp_filesystem_move : list event -> value -> string -> bool;
  version_compare : string -> string -> Z;
  dirname : string -> string;
  esc_url : string -> string;
  translate : string -> string -> string;
  sprintf : string -> list string -> string
}.

(** The singleton's private fields. *)
Record Gutestrap_Update : Type := {
  repo_version_branch : string;
  remote_plugin_endpoint_base : string;
  did_fetch_remote_data : bool
}.

(** [__construct]: the field initialisers, then the endpoint base. The four
    [add_filter] registrations tell the host when to call the methods below. *)
Definition construct : Gutestrap_Update :=
  let branch := "main" in
  {| repo_version_branch := branch;
     remote_plugin_endpoint_base :=
       "https://raw.githubusercontent.com/Denman-Digital/gutestrap/" +:+ branch +:+ "/";
     did_fetch_remote_data := false |}.

Record world : Type := {
  this : Gutestrap_Update;
  trace : list event
}.

(** ** The monad: state passing, with PHP exceptions *)

Inductive outcome (A : Type) : Type :=
| Returned (a : A) (w : world)
| Thrown (error : string) (w : world).
Arguments Returned {A} a w.
Arguments Thrown {A} error w.

Definition php (A : Type) : Type := world -> outcome A.

Definition ret {A : Type} (a : A) : php A := fun w => Returned a w.

Definition bind {A B : Type} (m : php A) (k : A -> php B) : php B :=
  fun w =>
    match m w with
    | Returned a w' => k a w'
    | Thrown e w' => Thrown e w'
    end.

Definition throw {A : Type} (e : string) : php A := fun w => Thrown e w.

Declare Scope php_scope.
Delimit Scope php_scope with php.
Notation "x <- m ;; k" := (bind m (fun x => k))
  (at level 100, m at next level, right associativity) : php_scope.
Notation "m ;;; k" := (bind m (fun _ => k))
  (at level 100, right associativity) : php_scope.
Local Open Scope php_scope.

Definition get_this : php Gutestrap_Update := fun w => Returned (this w) w.

Definition set_did_fetch_remote_data (b : bool) : php unit :=
  fun w =>
    Returned tt
      {| this := {| repo_version_branch := repo_version_branch (this w);
                    remote_plugin_endpoint_base := remote_plugin_endpoint_base (this w);
                    did_fetch_remote_data := b |};
         trace := trace w |}.

Definition emit (e : event) : php unit :=
  fun w => Returned tt {| this := this w; trace := trace w ++ [e] |}.

(** Ask the host a question whose answer depends on the history. *)
Definition ask {A : Type} (q : list event -> A) : php A :=
  fun w => Returned (q (trace w)) w.

(** A value passed where an internal function declares a [string]
    parameter (coercive typing): scalars convert, arrays and objects are a
    [TypeError]. *)
Definition string_param (v : value) : php string :=
  match v with
  | VStr s => ret s
  | VNull => ret EmptyString
  | VBool true => ret "1"
  | VBool false => ret EmptyString
  | VArr _ | VObj _ => throw "TypeError"
  end.

(** [(object) v]. *)
Definition cast_object (v : value) : value :=
  match v with
  | VArr a => VObj a
  | VObj o => VObj o
  | VNull => VObj []
  | scalar => VObj [("scalar", scalar)]
  end.

(** ** The methods of [Gutestrap_Update] *)

Section Methods.

Variable E : Env.

(** The call [get_plugin_data($url)]: one network retrieval. *)
Definition call_get_plugin_data (url : string) : php headers :=
  remote <- ask (fun history => get_plugin_data E history url) ;;
  emit (EFetch url) ;;;
  ret remote.

(** The call [$wp_filesystem->move($source, $destination)]. *)
Definition call_move (source : value) (destination : string) : php bool :=
  moved <- ask (fun history => wp_filesystem_move E history source destination) ;;
  emit (EMove source destination moved) ;;;
  ret moved.

(** The call [activate_plugin($plugin)]; its result is not looked at. *)
Definition call_activate_plugin (plugin : string) : php unit :=
  emit (EActivate plugin).

Definition get_remote_plugin_data : php php_array :=
  self <- get_this ;;
  remote_plugin_data <-
    call_get_plugin_data (remote_plugin_endpoint_base self +:+ GUTESTRAP_PLUGIN_FILE E) ;;
  if negb (truthy remote_plugin_data) then ret []
  else
    ret [ ("slug", VStr "gutestrap");
          ("plugin", VStr (GUTESTRAP_PLUGIN_BASENAME E));
          ("name", header remote_plugin_data "Name");
          ("version", header remote_plugin_data "Version");
          ("new_version", header remote_plugin_data "Version");
          ("url", header remote_plugin_data "PluginURI");
          ("package",
           VStr ("https://github.com/Denman-Digital/gutestrap/archive/"
                 +:+ repo_version_branch self +:+ ".zip"));
          ("requires", header remote_plugin_data "RequiresWP");
          ("require_php", header remote_plugin_data "RequiresPHP");
          ("author", header remote_plugin_data "Author");
          ("icons",
           VArr [ ("2x", VStr (remote_plugin_endpoint_base self +:+ "assets/icon-256x256.png"));
                  ("1x", VStr (remote_plugin_endpoint_base self +:+ "assets/icon-128x128.png"));
                  ("svg", VStr (remote_plugin_endpoint_base self +:+ "assets/icon.svg")) ]);
          ("banners",
           VArr [ ("high", VStr (remote_plugin_endpoint_base self +:+ "assets/banner-1544x500.jpg"));
                  ("low", VStr (remote_plugin_endpoint_base self +:+ "assets/banner-772x250.jpg")) ]) ].

Definition update_plugins_gutestrap_data (value0 : value) : php value :=
  data <- get_remote_plugin_data ;;
  if truthy data then
    set_did_fetch_remote_data true ;;;
    ret (VArr data)
  else ret value0.

Definition modify_plugins_transient (transient : update_plugins) : php update_plugins :=
  (* bail early if no response (error) *)
  if negb (isset_field (response transient)) then ret transient
  else
    self <- get_this ;;
    if isset_field (checked transient)
       && isset_at (checked transient) (GUTESTRAP_PLUGIN_BASENAME E)
       && isset_at (no_update transient) (GUTESTRAP_PLUGIN_BASENAME E)
       && negb (did_fetch_remote_data self)
    then
      data <- get_remote_plugin_data ;;
      let remote_data := cast_object (VArr data) in
      remote_version <- string_param (prop remote_data "new_version") ;;
      local_version <- string_param (header (gutestrap_plugin_data E) "Version") ;;
      if (0 <? version_compare E remote_version local_version)%Z then
        ret (unset_no_update (GUTESTRAP_PLUGIN_BASENAME E)
               (set_response (GUTESTRAP_PLUGIN_BASENAME E) remote_data transient))
      else ret transient
    else ret transient.

Definition installation_format : string :=
  "<a href=" +:+ dq +:+ "%s" +:+ dq +:+
  " download>Download the latest release from GitHub</a>, and either install it through the Add New Plugins page in the WordPress admin, or manually extract the contents into your WordPress installations plugin folder.".

Definition changelog_format : string :=
  "<a href=" +:+ dq +:+ "%s" +:+ dq +:+ ">%s</a>".

Definition modify_plugin_details (result action args : value) : php value :=
  if negb (isset (prop args "slug"))
     || negb (identical_str (prop args "slug") "gutestrap")
     || negb (identical_str action "plugin_information")
  then ret result
  else
    data <- get_remote_plugin_data ;;
    let result := VArr data in
    if negb (is_array result) then ret result
    else
      self <- get_this ;;
      let result := cast_object result in
      let sections :=
        [ ("description", header (gutestrap_plugin_data E) "Description");
          ("installation",
           VStr (sprintf E (translate E installation_format "gutestrap")
                   [esc_url E ("https://github.com/Denman-Digital/gutestrap/archive/"
                               +:+ repo_version_branch self +:+ ".zip")]));
          ("changelog",
           VStr (sprintf E changelog_format
                   [esc_url E "https://github.com/Denman-Digital/gutestrap/releases";
                    translate E "Full list of releases" "gutestrap"])) ] in
      ret (prop_set result "sections" (VArr sections)).

(** The body of [post_install], run to its [return]: the value returned,
    and the local [$result] as it stands then. [$result] is an array
    parameter taken by value, so the second component is only the
    method's own copy. *)
Definition post_install_body (response0 : bool) (_hook_extra result : php_array)
  : php (bool * php_array) :=
  (* Remember if our plugin was previously activated *)
  wasActivated <- ask (fun history => is_plugin_active E history (GUTESTRAP_PLUGIN_BASENAME E)) ;;
  if isset (index _hook_extra "plugin")
     && identical_str (index _hook_extra "plugin") (GUTESTRAP_PLUGIN_BASENAME E)
  then
    let pluginFolder :=
      WP_PLUGIN_DIR E +:+ DIRECTORY_SEPARATOR E +:+ dirname E (GUTESTRAP_PLUGIN_BASENAME E) in
    call_move (index result "destination") pluginFolder ;;;
    let result := array_set result "destination" (VStr pluginFolder) in
    (if wasActivated then call_activate_plugin (GUTESTRAP_PLUGIN_BASENAME E) else ret tt) ;;;
    ret (response0, result)
  else ret (response0, result).

(** [post_install] as its caller sees it: a [bool] comes back. *)
Definition post_install (response0 : bool) (_hook_extra result : php_array) : php bool :=
  r <- post_install_body response0 _hook_extra result ;;
  ret (fst r).

End Methods.

(** ** Reading the aggregate and the trace *)

(** The entry a field of the aggregate holds for a plugin, if any. *)
Definition entry (field : option (gmap string value)) (k : string) : option value :=
  field ≫= (fun m => m !! k).

(** The plugin is classified on both sides of the aggregate at once. *)
Definition both_outcomes (k : string) (t : update_plugins) : Prop :=
  is_Some (entry (response t) k) /\ is_Some (entry (no_update t) k).

(** The plugin is classified as having update [d] available, and no longer
    as up to date. *)
Definition update_available (k : string) (d : value) (t : update_plugins) : Prop :=
  entry (response t) k = Some d /\ entry (no_update t) k = None.

(** Number of network retrievals in a trace. *)
Fixpoint fetches (tr : list event) : nat :=
  match tr with
  | [] => 0
  | EFetch _ :: rest => S (fetches rest)
  | _ :: rest => fetches rest
  end.

(** The URL the class reads the remote headers from. *)
Definition remote_url (E : Env) (self : Gutestrap_Update) : string :=
  remote_plugin_endpoint_base self +:+ GUTESTRAP_PLUGIN_FILE E.

(** The world after one retrieval from [remote_url]. *)
Definition fetched (E : Env) (w : world) : world :=
  {| this := this w; trace := trace w ++ [EFetch (remote_url E (this w))] |}.

(** The text of a header as a [string] parameter receives it: a missing
    header arrives as the empty string. *)
Definition header_text (h : headers) (k : string) : string :=
  match assoc k h with Some s => s | None => EmptyString end.

(** The conditions under which [modify_plugins_transient] goes on to the
    comparison: a response container, a checked version and a no-update
    entry for the plugin, and no successful fetch recorded so far. *)
Definition guards_pass (E : Env) (t : update_plugins) (w : world) : bool :=
  isset_field (response t)
  && isset_at (checked t) (GUTESTRAP_PLUGIN_BASENAME E)
  && isset_at (no_update t) (GUTESTRAP_PLUGIN_BASENAME E)
  && negb (did_fetch_remote_data (this w)).

(** ** A stubbed host, as a test of the class would set one up *)

Module Stub.

(** Decimal value of a run of digits, most significant first. *)
Definition digit (c : Ascii.ascii) : N := (Ascii.N_of_ascii c - 48)%N.

(** The dot-separated numeric components of a version. *)
Fixpoint components (s : string) (current : N) : list N :=
  match s with
  | EmptyString => [current]
  | String c rest =>
      if Ascii.eqb c "."%char then current :: components rest 0
      else components rest (10 * current + digit c)
  end.

Fixpoint compare_components (a b : list N) : Z :=
  match a, b with
  | [], [] => 0
  | _ :: _, [] => 1
  | [], _ :: _ => -1
  | x :: a', y :: b' =>
      match N.compare x y with
      | Lt => -1
      | Gt => 1
      | Eq => compare_components a' b'
      end
  end.

(** Version precedence on dot-separated decimal versions: numeric,
    component by component; an empty version is below every other. *)
Definition dotted_version_compare (v1 v2 : string) : Z :=
  match v1, v2 with
  | EmptyString, EmptyString => 0
  | EmptyString, _ => -1
  | _, EmptyString => 1
  | _, _ => compare_components (components v1 0) (components v2 0)
  end.

(** The text before the last slash of a relative path. *)
Fixpoint before_last_slash (s : string) : option string :=
  match s with
  | EmptyString => None
  | String c rest =>
      match before_last_slash rest with
      | Some d => Some (String c d)
      | None => if Ascii.eqb c "/"%char then Some EmptyString else None
      end
  end.

Definition path_dirname (path : string) : string :=
  match before_last_slash path with
  | Some d => d
  | None => "."
  end.

(** Replace each [%s] by the next argument. *)
Fixpoint sprintf_s (format : string) (args : list string) : string :=
  match format with
  | String "%"%char (String "s"%char rest) =>
      match args with
      | a :: args' => a +:+ sprintf_s rest args'
      | [] => sprintf_s rest []
      end
  | String c rest => String c (sprintf_s rest args)
  | EmptyString => EmptyString
  end.

(** A host whose remote file always parses to [remote], whose installed
    plugin has version [installed], and that answers [active] and [moved]. *)
Definition env (remote : headers) (installed : string) (active moved : bool) : Env :=
  {| GUTESTRAP_PLUGIN_FILE := "gutestrap.php";
     GUTESTRAP_PLUGIN_BASENAME := "gutestrap/gutestrap.php";
     WP_PLUGIN_DIR := "/var/www/wp-content/plugins";
     DIRECTORY_SEPARATOR := "/";
     gutestrap_plugin_data := [("Name", "GuteStrap"); ("Version", installed)];
     get_plugin_data := fun _ _ => remote;
     is_plugin_active := fun _ _ => active;
     wp_filesystem_move := fun _ _ _ => moved;
     version_compare := dotted_version_compare;
     dirname := path_dirname;
     esc_url := fun url => url;
     translate := fun text _ => text;
     sprintf := sprintf_s |}.

Definition plugin : string := "gutestrap/gutestrap.php".

(** A fresh singleton, nothing requested yet. *)
Definition start : world := {| this := construct; trace := [] |}.

(** The aggregate after the host's own check found nothing newer. *)
Definition no_update_yet : update_plugins :=
  {| last_checked := Some 1700000000%Z;
     checked := Some {[ plugin := VStr "2.3.0" ]};
     response := Some ∅;
     no_update := Some {[ plugin := VObj [("slug", VStr "gutestrap")] ]} |}.

(** The singleton once [update_plugins_gutestrap_data] has fetched with
    success earlier in the cycle. *)
Definition already_fetched : world :=
  {| this := {| repo_version_branch := "main";
                remote_plugin_endpoint_base :=
                  "https://raw.githubusercontent.com/Denman-Digital/gutestrap/main/";
                did_fetch_remote_data := true |};
     trace := [EFetch "https://raw.githubusercontent.com/Denman-Digital/gutestrap/main/gutestrap.php"] |}.

Definition remote_2_4_0 : headers :=
  [("Name", "GuteStrap"); ("Version", "2.4.0"); ("PluginURI", "https://github.com/Denman-Digital/gutestrap")].

End Stub.

(** ** The singleton accessor and the hooks

    [instance] is the static accessor; the constructor it runs registers
    the four filters. The host then calls the registered methods, in an
    order the class does not control. *)

Record filter : Type := {
  hook : string;
  method : string;
  priority : Z;
  accepted_args : nat
}.

(** The PHP process as far as the class goes: the static [$instance] and
    what [add_filter] has recorded. *)
Record process : Type := {
  instance_slot : option Gutestrap_Update;
  filters : list filter
}.

(** The [add_filter] calls of [__construct], in order. *)
Definition registrations : list filter :=
  [ {| hook := "update_plugins_gutestrap"; method := "update_plugins_gutestrap_data";
       priority := 10; accepted_args := 1 |};
    {| hook := "pre_set_site_transient_update_plugins"; method := "modify_plugins_transient";
       priority := 10; accepted_args := 1 |};
    {| hook := "plugins_api"; method := "modify_plugin_details";
       priority := 99999; accepted_args := 3 |};
    {| hook := "upgrader_post_install"; method := "post_install";
       priority := 10; accepted_args := 3 |} ].

(** [Gutestrap_Update::instance()]. *)
Definition instance (p : process) : Gutestrap_Update * process :=
  match instance_slot p with
  | None =>
      (construct,
       {| instance_slot := Some construct; filters := filters p ++ registrations |})
  | Some self => (self, p)
  end.

(** One call by the host of a registered method. *)
Inductive hook_call : Type :=
| UpdatePluginsGutestrap (value0 : value)
| PreSetSiteTransient (transient : update_plugins)
| PluginsApi (result action args : value)
| UpgraderPostInstall (response0 : bool) (_hook_extra result : php_array).

Definition apply_hook (E : Env) (c : hook_call) : php unit :=
  match c with
  | UpdatePluginsGutestrap value0 =>
      update_plugins_gutestrap_data E value0 ;;; ret tt
  | PreSetSiteTransient transient =>
      modify_plugins_transient E transient ;;; ret tt
  | PluginsApi result action args =>
      modify_plugin_details E result action args ;;; ret tt
  | UpgraderPostInstall response0 _hook_extra result =>
      post_install E response0 _hook_extra result ;;; ret tt
  end.

(** The host calling the hooks one after the other in one process. *)
Fixpoint apply_hooks (E : Env) (calls : list hook_call) : php unit :=
  match calls with
  | [] => ret tt
  | c :: rest => apply_hook E c ;;; apply_hooks E rest
  end.

(** How the world may differ after some calls: the branch and the
    endpoint are as before, a set flag is still set, and the trace has
    only grown, by at most [n] retrievals. *)
Definition evolves (n : nat) (w w' : world) : Prop :=
  repo_version_branch (this w') = repo_version_branch (this w)
  /\ remote_plugin_endpoint_base (this w') = remote_plugin_endpoint_base (this w)
  /\ (did_fetch_remote_data (this w) = true -> did_fetch_remote_data (this w') = true)
  /\ exists evs : list event, trace w' = (trace w ++ evs)%list /\ fetches evs <= n.

(** The world after a fetch that gave data to [update_plugins_gutestrap_data]. *)
Definition fetched_with_data (E : Env) (w : world) : world :=
  {| this := {| repo_version_branch := repo_version_branch (this w);
                remote_plugin_endpoint_base := remote_plugin_endpoint_base (this w);
                did_fetch_remote_data := true |};
     trace := (trace w ++ [EFetch (remote_url E (this w))])%list |}.

(** [n] calls of [instance] in a row. *)
Fixpoint instances (n : nat) (p : process) : process :=
  match n with
  | 0 => p
  | S n' => instances n' (snd (instance p))
  end.

(** What WordPress's [get_plugin_data] hands back for a file it cannot
    read, or that carries no plugin header at all: every header is there,
    with an empty text (the text headers are listed). *)
Definition headers_of_unreadable_file : headers :=
  [ ("Name", EmptyString); ("PluginURI", EmptyString); ("Version", EmptyString);
    ("Description", EmptyString); ("Author", EmptyString); ("AuthorURI", EmptyString);
    ("TextDomain", EmptyString); ("DomainPath", EmptyString);
    ("RequiresWP", EmptyString); ("RequiresPHP", EmptyString);
    ("UpdateURI", EmptyString); ("Title", EmptyString); ("AuthorName", EmptyString) ].

(** ** The hooks as the host's filters reach them

    [post_install] declares the types of its parameters; the host applies
    the filter with whatever the filter chain carries (a [WP_Error] in
    place of the flag, say), and PHP checks the arguments on entry. *)

(** A value handed to a [bool] parameter (coercive typing): a boolean
    passes, a string converts, null, an array or an object is a
    [TypeError]. *)
Definition bool_param (v : value) : php bool :=
  match v with
  | VBool b => ret b
  | VStr s => ret (negb (String.eqb s EmptyString || String.eqb s "0"))
  | VNull | VArr _ | VObj _ => throw "TypeError"
  end.

(** A value handed to an [array] parameter. *)
Definition array_param (v : value) : php php_array :=
  match v with
  | VArr a => ret a
  | VNull | VBool _ | VStr _ | VObj _ => throw "TypeError"
  end.

(** One application of a filter by the host, the arguments as they come. *)
Inductive hook_request : Type :=
| OnUpdatePluginsGutestrap (value0 : value)
| OnPreSetSiteTransient (transient : update_plugins)
| OnPluginsApi (result action args : value)
| OnUpgraderPostInstall (response0 _hook_extra result : value).

(** Entering the method: the three other methods declare no parameter
    type; [post_install] checks [bool], [array], [array]. *)
Definition enter (r : hook_request) : php hook_call :=
  match r with
  | OnUpdatePluginsGutestrap value0 => ret (UpdatePluginsGutestrap value0)
  | OnPreSetSiteTransient transient => ret (PreSetSiteTransient transient)
  | OnPluginsApi result action args => ret (PluginsApi result action args)
  | OnUpgraderPostInstall response0 _hook_extra result =>
      response1 <- bool_param response0 ;;
      hook_extra1 <- array_param _hook_extra ;;
      result1 <- array_param result ;;
      ret (UpgraderPostInstall response1 hook_extra1 result1)
  end.

(** The host applying filters one after the other in one request; an
    uncaught exception ends the request. *)
Fixpoint serve_hooks (E : Env) (requests : list hook_request) : php unit :=
  match requests with
  | [] => ret tt
  | r :: rest =>
      (c <- enter r ;; apply_hook E c) ;;;
      serve_hooks E rest
  end.


(** ** [toNumber] (the editor's constants module)

    JavaScript's values and its Number type stay abstract: [Number] is the
    builtin conversion, which completes with a number or abruptly, with a
    [TypeError] (on a Symbol, or on an object whose conversion throws);
    [isNaN] is the builtin test, [of_number] a number taken as a value,
    [zero] the literal [0]. *)

Inductive completion (A : Type) : Type :=
| Normal (a : A)
| Abrupt.
Arguments Normal {A} a.
Arguments Abrupt {A}.

Record JS : Type := {
  jsvalue : Type;
  number : Type;
  Number : jsvalue -> completion number;
  isNaN : number -> bool;
  of_number : number -> jsvalue;
  zero : number
}.

(** What the language guarantees of the builtins: converting a number
    gives that number, and [0] is not NaN. *)
Definition JS_laws (J : JS) : Prop :=
  (forall n : number J, Number J (of_number J n) = Normal n)
  /\ isNaN J (zero J) = false.

(** [toNumber(value, fallback)], with [fallback] already defaulted to [0]
    when the caller left it out; the recursive call leaves it out. The
    fuel bounds the depth of the recursion: [None] is fuel run out. *)
Fixpoint toNumber (J : JS) (fuel : nat) (value0 fallback : jsvalue J)
  : option (completion (number J)) :=
  match fuel with
  | 0 => None
  | S fuel' =>
      match Number J value0 with
      | Abrupt => Some Abrupt
      | Normal number0 =>
          if isNaN J number0 then toNumber J fuel' fallback (of_number J (zero J))
          else Some (Normal number0)
      end
  end.

(** What [toNumber] comes to, read off its two branches unrolled. *)
Definition toNumber_result (J : JS) (value0 fallback : jsvalue J) : completion (number J) :=
  match Number J value0 with
  | Abrupt => Abrupt
  | Normal n =>
      if isNaN J n then
        match Number J fallback with
        | Abrupt => Abrupt
        | Normal m => if isNaN J m then Normal (zero J) else Normal m
        end
      else Normal n
  end.

(** A small instance: a value is an integer, something that is not a
    number and converts to NaN, or a symbol, whose conversion throws. *)
Inductive sample_value : Type :=
| AnInteger (z : Z)
| NotANumber
| ASymbol.

Definition sample_js : JS :=
  {| jsvalue := sample_value;
     number := option Z;
     Number := fun v =>
       match v with
       | AnInteger z => Normal (Some z)
       | NotANumber => Normal None
       | ASymbol => Abrupt
       end;
     isNaN := fun n => match n with None => true | Some _ => false end;
     of_number := fun n => match n with Some z => AnInteger z | None => NotANumber end;
     zero := Some 0%Z |}.

(** ** The case helpers of the gulpfile

    Strings are read as sequences of ASCII characters (module identifiers
    and file names); each regular-expression replacement is written as
    the scan it performs. *)

Module Gulp.

Local Open Scope nat_scope.

Definition code (c : Ascii.ascii) : nat := Ascii.nat_of_ascii c.

(** [[A-Z]]. *)
Definition is_upper (c : Ascii.ascii) : bool := (65 <=? code c) && (code c <=? 90).

(** [[a-z]]. *)
Definition is_lower (c : Ascii.ascii) : bool := (97 <=? code c) && (code c <=? 122).

(** [[0-9]]. *)
Definition is_digit (c : Ascii.ascii) : bool := (48 <=? code c) && (code c <=? 57).

(** The class [\w]. *)
Definition is_word (c : Ascii.ascii) : bool :=
  is_upper c || is_lower c || is_digit c || (code c =? 95).

(** The class [\s], and what [trim] strips: tab, line feed, vertical tab,
    form feed, carriage return, space. *)
Definition is_space (c : Ascii.ascii) : bool :=
  ((9 <=? code c) && (code c <=? 13)) || (code c =? 32).

(** The class [[_-]]. *)
Definition is_dash (c : Ascii.ascii) : bool := (code c =? 95) || (code c =? 45).

(** A line terminator, which [.] does not match. *)
Definition is_line_terminator (c : Ascii.ascii) : bool := (code c =? 10) || (code c =? 13).

Definition to_lower (c : Ascii.ascii) : Ascii.ascii :=
  if is_upper c then Ascii.ascii_of_nat (code c + 32) else c.

Definition to_upper (c : Ascii.ascii) : Ascii.ascii :=
  if is_lower c then Ascii.ascii_of_nat (code c - 32) else c.

(** [s.toLowerCase()]. *)
Fixpoint toLowerCase (s : string) : string :=
  match s with
  | EmptyString => EmptyString
  | String c rest => String (to_lower c) (toLowerCase rest)
  end.

(** [s.replace(/([A-Z]+)/g, " $1")]: a space before each run of capitals;
    [in_run] says the previous character was a capital. *)
Fixpoint space_before_capitals (in_run : bool) (s : string) : string :=
  match s with
  | EmptyString => EmptyString
  | String c rest =>
      if is_upper c then
        if in_run then String c (space_before_capitals true rest)
        else String " " (String c (space_before_capitals true rest))
      else String c (space_before_capitals false rest)
  end.

(** [s.replace(/[class]+/g, replacement)]: each run of the class becomes
    one [replacement]; [in_run] says the previous character was in it. *)
Fixpoint replace_runs (class : Ascii.ascii -> bool) (replacement : string)
    (in_run : bool) (s : string) : string :=
  match s with
  | EmptyString => EmptyString
  | String c rest =>
      if class c then
        if in_run then replace_runs class replacement true rest
        else replacement +:+ replace_runs class replacement true rest
      else String c (replace_runs class replacement false rest)
  end.

Fixpoint trim_start (s : string) : string :=
  match s with
  | EmptyString => EmptyString
  | String c rest => if is_space c then trim_start rest else s
  end.

Fixpoint trim_end (s : string) : string :=
  match s with
  | EmptyString => EmptyString
  | String c rest =>
      match trim_end rest with
      | EmptyString => if is_space c then EmptyString else String c EmptyString
      | kept => String c kept
      end
  end.

(** [s.trim()]. *)
Definition trim (s : string) : string := trim_end (trim_start s).

Definition stripCase (str : string) : string :=
  toLowerCase
    (trim
       (replace_runs is_space " " false
          (replace_runs is_dash " " false
             (space_before_capitals false str)))).

(** [str.replace(/\b\w/g, (match) => match.toUpperCase())]: a word
    character is matched when no word character precedes it. *)
Fixpoint upperCaseWords_from (after_word : bool) (str : string) : string :=
  match str with
  | EmptyString => EmptyString
  | String c rest =>
      String (if is_word c && negb after_word then to_upper c else c)
        (upperCaseWords_from (is_word c) rest)
  end.

Definition upperCaseWords (str : string) : string := upperCaseWords_from false str.

Definition titleCase (str : string) : string := upperCaseWords (stripCase str).

Definition pascalCase (str : string) : string :=
  replace_runs is_space EmptyString false (titleCase str).

(** [str.charAt(0).toLowerCase() + str.slice(1)]. *)
Definition lowerCaseFirst (str : string) : string :=
  match str with
  | EmptyString => EmptyString
  | String c rest => String (to_lower c) rest
  end.

Definition camelCase (str : string) : string := lowerCaseFirst (pascalCase str).

(** The pattern shared by [external] and [globals]: the identifier starts
    with [@wordpress/], and the rest of it, which is captured, runs to the
    end without a line terminator. *)
Fixpoint no_line_terminator (s : string) : bool :=
  match s with
  | EmptyString => true
  | String c rest => negb (is_line_terminator c) && no_line_terminator rest
  end.

Fixpoint strip_prefix (prefix s : string) : option string :=
  match prefix, s with
  | EmptyString, _ => Some s
  | String p prefix', String c rest =>
      if Ascii.eqb p c then strip_prefix prefix' rest else None
  | String _ _, EmptyString => None
  end.

Definition wordpress_package (id : string) : option string :=
  match strip_prefix "@wordpress/" id with
  | Some pkg => if no_line_terminator pkg then Some pkg else None
  | None => None
  end.

(** [rollupOptions.input.external]. *)
Definition external (id : string) : bool :=
  if String.eqb id "jquery" || String.eqb id "wp" then true
  else isset_field (wordpress_package id) && negb (String.eqb "@wordpress/icons" id).

(** [rollupOptions.output.globals], the function (the later of the two
    [globals] keys of the literal). *)
Definition globals (id : string) : string :=
  if String.eqb id "jquery" then "jQuery"
  else if String.eqb id "wp" then "wp"
  else match wordpress_package id with
       | Some pkg => "wp." +:+ camelCase pkg
       | None => id
       end.

(** Every character of [s] satisfies [p]. *)
Fixpoint all_chars (p : Ascii.ascii -> bool) (s : string) : bool :=
  match s with
  | EmptyString => true
  | String c rest => p c && all_chars p rest
  end.

(** A 7-bit character. *)
Definition is_ascii (c : Ascii.ascii) : bool := code c <? 128.

(** White space occurs only as single space characters; [after_space]
    says one came just before. *)
Fixpoint spaced (after_space : bool) (s : string) : bool :=
  match s with
  | EmptyString => true
  | String c rest =>
      if is_space c then (code c =? 32) && negb after_space && spaced true rest
      else spaced false rest
  end.

(** The string does not begin with white space. *)
Definition starts_clean (s : string) : bool :=
  match s with
  | EmptyString => true
  | String c _ => negb (is_space c)
  end.

Definition not_dash (c : Ascii.ascii) : bool := negb (is_dash c).

Definition not_space (c : Ascii.ascii) : bool := negb (is_space c).

Definition not_upper (c : Ascii.ascii) : bool := negb (is_upper c).

(** Neither white space, nor an underscore, nor a hyphen. *)
Definition is_joined (c : Ascii.ascii) : bool := negb (is_space c) && negb (is_dash c).

End Gulp.

Example stub_version_newer : Stub.dotted_version_compare "2.4.0" "2.3.0" = 1%Z.
Proof. reflexivity. Qed.

Example stub_version_numeric : Stub.dotted_version_compare "2.10.0" "2.9.1" = 1%Z.
Proof. reflexivity. Qed.

Example stub_version_equal : Stub.dotted_version_compare "2.3.0" "2.3.0" = 0%Z.
Proof. reflexivity. Qed.

Example stub_dirname : Stub.path_dirname "gutestrap/gutestrap.php" = "gutestrap".
Proof. reflexivity. Qed.

(** ** Running the monad *)

Ltac run_php :=
  unfold bind, ret, ask, emit, throw, get_this, set_did_fetch_remote_data; simpl.

Section Facts.

Variable E : Env.

Lemma identical_str_true (v : value) (s : string) :
  identical_str v s = true <-> v = VStr s.
Proof.
  destruct v as [| b | s' | a | o]; simpl; split; try discriminate.
  - intros H%String.eqb_eq. by subst.
  - intros [= ->]. apply String.eqb_refl.
Qed.

Lemma truthy_false {A : Type} (a : list A) : truthy a = false <-> a = [].
Proof. destruct a; simpl; split; congruence. Qed.

Lemma fetches_app (tr1 tr2 : list event) :
  fetches (tr1 ++ tr2) = fetches tr1 + fetches tr2.
Proof.
  induction tr1 as [| e tr1 IH]; simpl; [done |].
  destruct e; simpl; by rewrite IH.
Qed.

(** One call of [get_remote_plugin_data]: it returns, after exactly one
    retrieval; the array is empty when the retrieval gave nothing, and
    carries the remote headers otherwise. *)
Lemma get_remote_plugin_data_run (w : world) :
  exists data : php_array,
    get_remote_plugin_data E w = Returned data (fetched E w)
    /\ match get_plugin_data E (trace w) (remote_url E (this w)) with
       | [] => data = []
       | remote =>
           truthy data = true
           /\ index data "slug" = VStr "gutestrap"
           /\ index data "plugin" = VStr (GUTESTRAP_PLUGIN_BASENAME E)
           /\ index data "name" = header remote "Name"
           /\ index data "version" = header remote "Version"
           /\ index data "new_version" = header remote "Version"
           /\ index data "url" = header remote "PluginURI"
           /\ index data "requires" = header remote "RequiresWP"
           /\ index data "require_php" = header remote "RequiresPHP"
           /\ index data "author" = header remote "Author"
           /\ isset (index data "package") = true
           /\ is_array (index data "icons") = true
           /\ is_array (index data "banners") = true
       end.
Proof.
  unfold get_remote_plugin_data, call_get_plugin_data, fetched, remote_url.
  run_php.
  destruct (get_plugin_data E (trace w) _) as [| h rest] eqn:Hremote; simpl.
  - by eexists.
  - eexists; split; [reflexivity |].
    repeat split; reflexivity.
Qed.

(** The retrieval behind [new_version], as [modify_plugins_transient] reads it. *)
Lemma new_version_of_remote (w : world) (data : php_array) :
  get_remote_plugin_data E w = Returned data (fetched E w) ->
  match get_plugin_data E (trace w) (remote_url E (this w)) with
  | [] => data = []
  | remote => index data "new_version" = header remote "Version"
  end.
Proof.
  intros Hrun.
  destruct (get_remote_plugin_data_run w) as (data' & Hrun' & Hdata).
  rewrite Hrun in Hrun'. injection Hrun' as <-.
  destruct (get_plugin_data E (trace w) _); [done |].
  by destruct Hdata as (_ & _ & _ & _ & _ & Hversion & _).
Qed.

End Facts.

Section TransientFacts.

Variable E : Env.

Lemma isset_at_field (field : option (gmap string value)) (k : string) :
  isset_at field k = true -> isset_field field = true.
Proof. by destruct field. Qed.

Lemma isset_at_entry (field : option (gmap string value)) (k : string) :
  isset_at field k = true -> is_Some (entry field k).
Proof.
  destruct field as [m |]; simpl; [| done].
  destruct (m !! k); [by eexists | done].
Qed.

Lemma string_param_header (h : headers) (k : string) (w : world) :
  string_param (header h k) w = Returned (header_text h k) w.
Proof. unfold header, header_text. by destruct (assoc k h). Qed.

(** What the comparison receives from the remote side. *)
Lemma string_param_new_version (w w' : world) (data : php_array) :
  get_remote_plugin_data E w = Returned data (fetched E w) ->
  string_param (prop (cast_object (VArr data)) "new_version") w'
  = Returned (header_text (get_plugin_data E (trace w) (remote_url E (this w))) "Version") w'.
Proof.
  intros Hrun. apply new_version_of_remote in Hrun.
  destruct (get_plugin_data E (trace w) _) as [| h rest] eqn:Hremote.
  - by subst data.
  - simpl. rewrite Hrun. apply string_param_header.
Qed.

(** With a guard failing, the method returns its argument and asks nothing. *)
Lemma modify_plugins_transient_skips (t : update_plugins) (w : world) :
  guards_pass E t w = false ->
  modify_plugins_transient E t w = Returned t w.
Proof.
  unfold guards_pass, modify_plugins_transient. run_php.
  destruct (isset_field (response t)); simpl; [| done].
  destruct (isset_at (checked t) _) eqn:Hchecked; simpl.
  - rewrite (isset_at_field _ _ Hchecked). simpl. by intros ->.
  - intros _. by rewrite andb_false_r.
Qed.

(** With the guards passing, one retrieval, then the comparison decides. *)
Lemma modify_plugins_transient_acts (t : update_plugins) (w : world) :
  guards_pass E t w = true ->
  exists data : php_array,
    get_remote_plugin_data E w = Returned data (fetched E w)
    /\ modify_plugins_transient E t w
       = Returned
           (if (0 <? version_compare E
                       (header_text (get_plugin_data E (trace w) (remote_url E (this w))) "Version")
                       (header_text (gutestrap_plugin_data E) "Version"))%Z
            then unset_no_update (GUTESTRAP_PLUGIN_BASENAME E)
                   (set_response (GUTESTRAP_PLUGIN_BASENAME E) (VObj data) t)
            else t)
           (fetched E w).
Proof.
  unfold guards_pass. intros Hguards.
  apply andb_prop in Hguards as [Hguards Hflag].
  apply andb_prop in Hguards as [Hguards Hno_update].
  apply andb_prop in Hguards as [Hresponse Hchecked].
  destruct (get_remote_plugin_data_run E w) as (data & Hrun & _).
  exists data. split; [done |].
  unfold modify_plugins_transient.
  rewrite Hresponse. cbn [negb]. unfold bind at 1, get_this.
  rewrite (isset_at_field _ _ Hchecked), Hchecked, Hno_update, Hflag. cbn [andb].
  unfold bind at 1. rewrite Hrun.
  unfold bind at 1. rewrite (string_param_new_version w (fetched E w) data Hrun).
  unfold bind at 1. rewrite string_param_header.
  by destruct (0 <? _)%Z.
Qed.

End TransientFacts.

(** ** The update-check aggregate: [modify_plugins_transient] *)

Section Transient.

Variable E : Env.

Lemma entry_response_marked (k : string) (d : value) (t : update_plugins) :
  entry (response (unset_no_update k (set_response k d t))) k = Some d.
Proof. simpl. apply lookup_insert_eq. Qed.

Lemma entry_no_update_marked (k : string) (d : value) (t : update_plugins) :
  entry (no_update (unset_no_update k (set_response k d t))) k = None.
Proof.
  simpl. destruct (no_update t) as [m |]; simpl; [| done].
  apply lookup_delete_eq.
Qed.

Lemma marked_update_available (k : string) (d : value) (t : update_plugins) :
  update_available k d (unset_no_update k (set_response k d t)).
Proof. split; [apply entry_response_marked | apply entry_no_update_marked]. Qed.

Lemma guards_pass_fetched (t : update_plugins) (w : world) :
  guards_pass E t (fetched E w) = guards_pass E t w.
Proof. reflexivity. Qed.

Lemma guards_pass_marked (d : value) (t : update_plugins) (w : world) :
  guards_pass E
    (unset_no_update (GUTESTRAP_PLUGIN_BASENAME E)
       (set_response (GUTESTRAP_PLUGIN_BASENAME E) d t)) w = false.
Proof.
  unfold guards_pass.
  assert (isset_at (no_update (unset_no_update (GUTESTRAP_PLUGIN_BASENAME E)
                      (set_response (GUTESTRAP_PLUGIN_BASENAME E) d t)))
            (GUTESTRAP_PLUGIN_BASENAME E) = false) as ->.
  { simpl. destruct (no_update t) as [m |]; simpl; [| done].
    by rewrite lookup_delete_eq. }
  by rewrite andb_false_r.
Qed.

(** C1 (as amended). When the guards of [modify_plugins_transient] pass (a
    response container, a checked version and a no-update entry for the
    plugin, no successful fetch recorded yet), the remote file carries
    version [remote] and the installed plugin version [installed], the
    method returns, and the plugin is marked as having an update available
    exactly when [version_compare] puts [remote] strictly above
    [installed]; when it does not, the aggregate comes back as given. *)
Theorem modify_plugins_transient_marks_iff_newer
    (t : update_plugins) (w : world) (remote installed : string) :
  guards_pass E t w = true ->
  assoc "Version" (get_plugin_data E (trace w) (remote_url E (this w))) = Some remote ->
  assoc "Version" (gutestrap_plugin_data E) = Some installed ->
  exists (t' : update_plugins) (data : php_array),
    modify_plugins_transient E t w = Returned t' (fetched E w)
    /\ get_remote_plugin_data E w = Returned data (fetched E w)
    /\ index data "version" = VStr remote
    /\ (update_available (GUTESTRAP_PLUGIN_BASENAME E) (VObj data) t'
        <-> (0 < version_compare E remote installed)%Z)
    /\ ((version_compare E remote installed <= 0)%Z -> t' = t).
Proof.
  intros Hguards Hremote Hinstalled.
  destruct (modify_plugins_transient_acts E t w Hguards) as (data & Hfetch & Hrun).
  unfold header_text in Hrun. rewrite Hremote, Hinstalled in Hrun.
  assert (index data "version" = VStr remote) as Hversion.
  { destruct (get_remote_plugin_data_run E w) as (data' & Hfetch' & Hdata).
    rewrite Hfetch in Hfetch'. injection Hfetch' as <-.
    destruct (get_plugin_data E (trace w) _) as [| h rest] eqn:Hheaders; [done |].
    destruct Hdata as (_ & _ & _ & _ & -> & _).
    unfold header. by rewrite Hremote. }
  destruct (0 <? version_compare E remote installed)%Z eqn:Hnewer.
  - apply Z.ltb_lt in Hnewer.
    eexists; exists data. split; [exact Hrun |]. split; [done |]. split; [done |]. split.
    + split; [done |]. intros _. apply marked_update_available.
    + lia.
  - apply Z.ltb_ge in Hnewer.
    exists t, data. split; [exact Hrun |]. split; [done |]. split; [done |]. split; [| done].
    split; [| lia].
    intros [_ Hgone]. exfalso.
    unfold guards_pass in Hguards.
    apply andb_prop in Hguards as [Hguards _].
    apply andb_prop in Hguards as [_ Hno_update].
    apply isset_at_entry in Hno_update as [d Hd]. congruence.
Qed.

(** C2. After a call the plugin is never on both sides of the aggregate
    through the method's doing: the aggregate comes back as given, or it
    holds the update entry for the plugin and no no-update entry for it;
    an aggregate with at most one outcome for the plugin keeps at most one. *)
Theorem modify_plugins_transient_one_outcome (t : update_plugins) (w : world) :
  exists (t' : update_plugins) (w' : world),
    modify_plugins_transient E t w = Returned t' w'
    /\ (t' = t \/ exists d, update_available (GUTESTRAP_PLUGIN_BASENAME E) d t')
    /\ (~ both_outcomes (GUTESTRAP_PLUGIN_BASENAME E) t ->
        ~ both_outcomes (GUTESTRAP_PLUGIN_BASENAME E) t').
Proof.
  destruct (guards_pass E t w) eqn:Hguards.
  - destruct (modify_plugins_transient_acts E t w Hguards) as (data & _ & Hrun).
    destruct (0 <? _)%Z.
    + eexists; eexists. split; [exact Hrun |]. split.
      * right. eexists. apply marked_update_available.
      * intros _ [_ [d Hd]]. by rewrite entry_no_update_marked in Hd.
    + exists t; eexists. split; [exact Hrun |]. split; [by left | done].
  - exists t, w. split; [by apply modify_plugins_transient_skips |].
    split; [by left | done].
Qed.

(** C3. Idempotence: with the remote file reading the same at a second
    retrieval, a second call on the aggregate the first call returned
    returns that same aggregate. *)
Theorem modify_plugins_transient_idempotent (t : update_plugins) (w : world) :
  get_plugin_data E (trace (fetched E w)) (remote_url E (this w))
  = get_plugin_data E (trace w) (remote_url E (this w)) ->
  exists (t1 : update_plugins) (w1 w2 : world),
    modify_plugins_transient E t w = Returned t1 w1
    /\ modify_plugins_transient E t1 w1 = Returned t1 w2.
Proof.
  intros Hsame.
  destruct (guards_pass E t w) eqn:Hguards.
  - destruct (modify_plugins_transient_acts E t w Hguards) as (data & _ & Hrun).
    destruct (0 <? _)%Z eqn:Hnewer.
    + eexists; eexists; eexists. split; [exact Hrun |].
      apply modify_plugins_transient_skips, guards_pass_marked.
    + rewrite <- guards_pass_fetched in Hguards.
      destruct (modify_plugins_transient_acts E t (fetched E w) Hguards)
        as (data2 & _ & Hrun2).
      change (this (fetched E w)) with (this w) in Hrun2.
      rewrite Hsame, Hnewer in Hrun2.
      exists t; eexists; eexists. split; [exact Hrun | exact Hrun2].
  - exists t, w, w. split; by apply modify_plugins_transient_skips.
Qed.

(** C10. Frame: unless the aggregate has a response container and both a
    checked version and a no-update entry for the plugin, the method
    returns it exactly as given, and asks nothing of the host. *)
Theorem modify_plugins_transient_frame (t : update_plugins) (w : world) :
  ~ (isset_field (response t) = true
     /\ isset_at (checked t) (GUTESTRAP_PLUGIN_BASENAME E) = true
     /\ isset_at (no_update t) (GUTESTRAP_PLUGIN_BASENAME E) = true) ->
  modify_plugins_transient E t w = Returned t w.
Proof.
  intros Hmissing. apply modify_plugins_transient_skips.
  unfold guards_pass.
  destruct (isset_field (response t)); [| done].
  destruct (isset_at (checked t) _); [| done].
  destruct (isset_at (no_update t) _); [| done].
  by destruct Hmissing.
Qed.

End Transient.

(** ** The fetch and the two entry points of one cycle *)

Section Fetch.

Variable E : Env.

(** With the flag set, [modify_plugins_transient] is the identity and asks
    nothing of the host. *)
Lemma modify_plugins_transient_after_fetch (t : update_plugins) (w : world) :
  did_fetch_remote_data (this w) = true ->
  modify_plugins_transient E t w = Returned t w.
Proof.
  intros Hflag. apply modify_plugins_transient_skips.
  unfold guards_pass. rewrite Hflag. simpl. by rewrite andb_false_r.
Qed.

(** C4. One cycle: when the retrieval behind [update_plugins_gutestrap_data]
    gives data, the flag is set, and [modify_plugins_transient] called
    afterwards returns the aggregate as given without another retrieval:
    the cycle's trace has grown by the one fetch only. *)
Theorem fetch_once_per_cycle (value0 : value) (t : update_plugins) (w : world) :
  get_plugin_data E (trace w) (remote_url E (this w)) <> [] ->
  exists (data : php_array) (w1 : world),
    update_plugins_gutestrap_data E value0 w = Returned (VArr data) w1
    /\ did_fetch_remote_data (this w1) = true
    /\ modify_plugins_transient E t w1 = Returned t w1
    /\ trace w1 = (trace w ++ [EFetch (remote_url E (this w))])%list
    /\ fetches (trace w1) = S (fetches (trace w)).
Proof.
  intros Hdata.
  destruct (get_remote_plugin_data_run E w) as (data & Hrun & Hpopulated).
  destruct (get_plugin_data E (trace w) _) as [| h rest]; [done |].
  destruct Hpopulated as (Htruthy & _).
  unfold update_plugins_gutestrap_data, bind at 1.
  rewrite Hrun, Htruthy. run_php.
  exists data. eexists. split; [reflexivity |].
  split; [reflexivity |].
  split; [by apply modify_plugins_transient_after_fetch |].
  split; [reflexivity |].
  simpl. rewrite fetches_app. simpl. lia.
Qed.

End Fetch.

(** ** The details view: [modify_plugin_details] *)

Section Details.

Variable E : Env.

(** A request for another slug or another action passes through. *)
Lemma modify_plugin_details_pass_through (result action args : value) (w : world) :
  prop args "slug" <> VStr "gutestrap" \/ action <> VStr "plugin_information" ->
  modify_plugin_details E result action args w = Returned result w.
Proof.
  intros Hother. unfold modify_plugin_details.
  destruct (identical_str (prop args "slug") "gutestrap") eqn:Hslug.
  - apply identical_str_true in Hslug.
    destruct (identical_str action "plugin_information") eqn:Haction.
    + apply identical_str_true in Haction. by destruct Hother.
    + by rewrite orb_true_r.
  - simpl. by rewrite orb_true_r.
Qed.

(** A request for the plugin's own details: one retrieval, and the
    sections are added to whatever came back, the empty array included. *)
Lemma modify_plugin_details_own_slug (result args : value) (w : world) :
  prop args "slug" = VStr "gutestrap" ->
  exists (data sections : php_array),
    get_remote_plugin_data E w = Returned data (fetched E w)
    /\ modify_plugin_details E result (VStr "plugin_information") args w
       = Returned (VObj (array_set data "sections" (VArr sections))) (fetched E w)
    /\ length sections = 3.
Proof.
  intros Hslug.
  destruct (get_remote_plugin_data_run E w) as (data & Hrun & _).
  unfold modify_plugin_details. rewrite Hslug. simpl.
  unfold bind at 1. rewrite Hrun. run_php.
  exists data. eexists. split; [done |]. split; reflexivity.
Qed.

End Details.

(** ** After an install: [post_install] *)

Section PostInstall.

Variable E : Env.

(** The guard of [post_install]: the hook names this plugin. *)
Lemma guard_own_plugin (_hook_extra : php_array) :
  isset (index _hook_extra "plugin")
  && identical_str (index _hook_extra "plugin") (GUTESTRAP_PLUGIN_BASENAME E) = true
  <-> index _hook_extra "plugin" = VStr (GUTESTRAP_PLUGIN_BASENAME E).
Proof.
  rewrite andb_true_iff, identical_str_true. split.
  - by intros [_ ?].
  - intros ->. by split.
Qed.

(** The install of this very plugin: one move from the extraction
    directory to the plugin folder, the local [$result] repointed, and an
    activation when the plugin was active before. *)
Lemma post_install_body_own_plugin (response0 : bool) (_hook_extra result : php_array) (w : world) :
  index _hook_extra "plugin" = VStr (GUTESTRAP_PLUGIN_BASENAME E) ->
  post_install_body E response0 _hook_extra result w
  = Returned
      (response0,
       array_set result "destination"
         (VStr (WP_PLUGIN_DIR E +:+ DIRECTORY_SEPARATOR E
                +:+ dirname E (GUTESTRAP_PLUGIN_BASENAME E))))
      {| this := this w;
         trace :=
           (trace w
            ++ [EMove (index result "destination")
                  (WP_PLUGIN_DIR E +:+ DIRECTORY_SEPARATOR E
                   +:+ dirname E (GUTESTRAP_PLUGIN_BASENAME E))
                  (wp_filesystem_move E (trace w) (index result "destination")
                     (WP_PLUGIN_DIR E +:+ DIRECTORY_SEPARATOR E
                      +:+ dirname E (GUTESTRAP_PLUGIN_BASENAME E)))]
            ++ (if is_plugin_active E (trace w) (GUTESTRAP_PLUGIN_BASENAME E)
                then [EActivate (GUTESTRAP_PLUGIN_BASENAME E)] else []))%list |}.
Proof.
  intros Hown. apply guard_own_plugin in Hown.
  unfold post_install_body, call_move, call_activate_plugin.
  unfold bind at 1, ask. rewrite Hown. run_php.
  destruct (is_plugin_active E (trace w) _); run_php.
  - by rewrite <- app_assoc.
  - done.
Qed.

(** C8. Whatever the arguments, the host's answers and the outcome of the
    move, [post_install] returns the success flag it was given. *)
Theorem post_install_returns_flag
    (response0 : bool) (_hook_extra result : php_array) (w : world) :
  exists w' : world,
    post_install E response0 _hook_extra result w = Returned response0 w'.
Proof.
  unfold post_install, post_install_body, call_move, call_activate_plugin.
  run_php.
  destruct (isset _ && identical_str _ _); run_php; [| by eexists].
  destruct (is_plugin_active E (trace w) _); run_php; by eexists.
Qed.

(** C9. When the installed item is not this plugin, [post_install] passes
    through: the flag comes back, the local [$result] is as given, and the
    world is the same (no move, no activation). *)
Theorem post_install_other_item
    (response0 : bool) (_hook_extra result : php_array) (w : world) :
  index _hook_extra "plugin" <> VStr (GUTESTRAP_PLUGIN_BASENAME E) ->
  post_install_body E response0 _hook_extra result w = Returned (response0, result) w
  /\ post_install E response0 _hook_extra result w = Returned response0 w.
Proof.
  intros Hother.
  assert (isset (index _hook_extra "plugin")
          && identical_str (index _hook_extra "plugin") (GUTESTRAP_PLUGIN_BASENAME E)
          = false) as Hguard.
  { apply not_true_is_false. by rewrite guard_own_plugin. }
  unfold post_install, post_install_body. run_php.
  by rewrite Hguard.
Qed.

End PostInstall.

(** ** The scenarios of the specification, on the stubbed host *)

(** Installed 2.3.0, remote 2.4.0, guards passing: the update is marked. *)
Lemma modify_plugins_transient_marks_iff_newer_witness :
  exists (t' : update_plugins) (data : php_array),
    modify_plugins_transient (Stub.env Stub.remote_2_4_0 "2.3.0" true true)
      Stub.no_update_yet Stub.start
    = Returned t' (fetched (Stub.env Stub.remote_2_4_0 "2.3.0" true true) Stub.start)
    /\ get_remote_plugin_data (Stub.env Stub.remote_2_4_0 "2.3.0" true true) Stub.start
       = Returned data (fetched (Stub.env Stub.remote_2_4_0 "2.3.0" true true) Stub.start)
    /\ index data "version" = VStr "2.4.0"
    /\ (update_available Stub.plugin (VObj data) t'
        <-> (0 < Stub.dotted_version_compare "2.4.0" "2.3.0")%Z)
    /\ ((Stub.dotted_version_compare "2.4.0" "2.3.0" <= 0)%Z -> t' = Stub.no_update_yet).
Proof.
  apply (modify_plugins_transient_marks_iff_newer
           (Stub.env Stub.remote_2_4_0 "2.3.0" true true)
           Stub.no_update_yet Stub.start "2.4.0" "2.3.0"); reflexivity.
Defined.

(** C1 as stated fails: the remote version 2.4.0 is strictly above the
    installed 2.3.0, but the fetch already succeeded earlier in the cycle,
    so the aggregate comes back as given, with the plugin still marked as
    up to date and no update entry for it. *)
Lemma modify_plugins_transient_newer_not_marked :
  (0 < version_compare (Stub.env Stub.remote_2_4_0 "2.3.0" true true) "2.4.0" "2.3.0")%Z
  /\ assoc "Version"
       (get_plugin_data (Stub.env Stub.remote_2_4_0 "2.3.0" true true)
          (trace Stub.already_fetched)
          (remote_url (Stub.env Stub.remote_2_4_0 "2.3.0" true true)
             (this Stub.already_fetched)))
     = Some "2.4.0"
  /\ assoc "Version" (gutestrap_plugin_data (Stub.env Stub.remote_2_4_0 "2.3.0" true true))
     = Some "2.3.0"
  /\ modify_plugins_transient (Stub.env Stub.remote_2_4_0 "2.3.0" true true)
       Stub.no_update_yet Stub.already_fetched
     = Returned Stub.no_update_yet Stub.already_fetched
  /\ entry (response Stub.no_update_yet) Stub.plugin = None
  /\ is_Some (entry (no_update Stub.no_update_yet) Stub.plugin).
Proof.
  split; [reflexivity |]. split; [reflexivity |]. split; [reflexivity |].
  split; [reflexivity |]. split; [reflexivity |].
  by eexists.
Qed.

(** A deterministic remote: the second call returns what the first did. *)
Lemma modify_plugins_transient_idempotent_witness :
  exists (t1 : update_plugins) (w1 w2 : world),
    modify_plugins_transient (Stub.env Stub.remote_2_4_0 "2.3.0" true true)
      Stub.no_update_yet Stub.start = Returned t1 w1
    /\ modify_plugins_transient (Stub.env Stub.remote_2_4_0 "2.3.0" true true) t1 w1
       = Returned t1 w2.
Proof.
  apply (modify_plugins_transient_idempotent
           (Stub.env Stub.remote_2_4_0 "2.3.0" true true) Stub.no_update_yet Stub.start).
  reflexivity.
Defined.

(** One cycle on the stubbed host: a single fetch. *)
Lemma fetch_once_per_cycle_witness :
  exists (data : php_array) (w1 : world),
    update_plugins_gutestrap_data (Stub.env Stub.remote_2_4_0 "2.3.0" true true)
      (VBool false) Stub.start = Returned (VArr data) w1
    /\ did_fetch_remote_data (this w1) = true
    /\ modify_plugins_transient (Stub.env Stub.remote_2_4_0 "2.3.0" true true)
         Stub.no_update_yet w1 = Returned Stub.no_update_yet w1
    /\ trace w1
       = (trace Stub.start
          ++ [EFetch (remote_url (Stub.env Stub.remote_2_4_0 "2.3.0" true true)
                        (this Stub.start))])%list
    /\ fetches (trace w1) = S (fetches (trace Stub.start)).
Proof.
  apply (fetch_once_per_cycle (Stub.env Stub.remote_2_4_0 "2.3.0" true true)
           (VBool false) Stub.no_update_yet Stub.start).
  simpl. discriminate.
Defined.

(** An aggregate with no response container comes back as given. *)
Lemma modify_plugins_transient_frame_witness :
  modify_plugins_transient (Stub.env Stub.remote_2_4_0 "2.3.0" true true)
    {| last_checked := Some 1700000000%Z; checked := None;
       response := None; no_update := None |}
    Stub.start
  = Returned
      {| last_checked := Some 1700000000%Z; checked := None;
         response := None; no_update := None |}
      Stub.start.
Proof.
  apply (modify_plugins_transient_frame (Stub.env Stub.remote_2_4_0 "2.3.0" true true)).
  simpl. intros [Hresponse _]. discriminate Hresponse.
Defined.

(** The install of another plugin passes through. *)
Lemma post_install_other_item_witness :
  post_install_body (Stub.env Stub.remote_2_4_0 "2.3.0" true true) true
    [("plugin", VStr "akismet/akismet.php")]
    [("destination", VStr "/var/www/wp-content/plugins/akismet")] Stub.start
  = Returned (true, [("destination", VStr "/var/www/wp-content/plugins/akismet")]) Stub.start
  /\ post_install (Stub.env Stub.remote_2_4_0 "2.3.0" true true) true
       [("plugin", VStr "akismet/akismet.php")]
       [("destination", VStr "/var/www/wp-content/plugins/akismet")] Stub.start
     = Returned true Stub.start.
Proof.
  apply (post_install_other_item (Stub.env Stub.remote_2_4_0 "2.3.0" true true) true
           [("plugin", VStr "akismet/akismet.php")]
           [("destination", VStr "/var/www/wp-content/plugins/akismet")] Stub.start).
  simpl. discriminate.
Defined.

(** C5 on the code. The slug and the action match and the retrieval gives
    nothing: [get_remote_plugin_data] returns the empty array, which is an
    array, so the [is_array] guard lets it through and the value returned
    is an object carrying [sections], not the empty fetch result. *)
Theorem modify_plugin_details_decorates_empty_fetch :
  exists (v : value) (w' : world),
    get_remote_plugin_data (Stub.env [] "2.3.0" true true) Stub.start = Returned [] w'
    /\ modify_plugin_details (Stub.env [] "2.3.0" true true)
         (VBool false) (VStr "plugin_information") (VObj [("slug", VStr "gutestrap")])
         Stub.start
       = Returned v w'
    /\ isset (prop v "sections") = true
    /\ v <> VArr [].
Proof.
  eexists; eexists. split; [lazy; reflexivity |]. split; [lazy; reflexivity |].
  split; [reflexivity | discriminate].
Qed.

(** C7 on the code. The plugin's own install, the plugin active before:
    the extraction directory is moved to the plugin folder, the plugin is
    activated, and [true] comes back; the canonical path is written to the
    method's own copy of [$result] only, and what the caller receives is
    the flag alone. *)
Theorem post_install_destination_stays_local :
  post_install_body (Stub.env Stub.remote_2_4_0 "2.3.0" true true) true
    [("plugin", VStr Stub.plugin)] [("destination", VStr "/tmp/extract-xyz")] Stub.start
  = Returned
      (true, [("destination", VStr "/var/www/wp-content/plugins/gutestrap")])
      {| this := construct;
         trace := [EMove (VStr "/tmp/extract-xyz") "/var/www/wp-content/plugins/gutestrap" true;
                   EActivate Stub.plugin] |}
  /\ post_install (Stub.env Stub.remote_2_4_0 "2.3.0" true true) true
       [("plugin", VStr Stub.plugin)] [("destination", VStr "/tmp/extract-xyz")] Stub.start
     = Returned true
         {| this := construct;
            trace := [EMove (VStr "/tmp/extract-xyz") "/var/www/wp-content/plugins/gutestrap" true;
                      EActivate Stub.plugin] |}.
Proof. split; reflexivity. Qed.

(** ** More on the fetch and on [update_plugins_gutestrap_data] *)

Section FetchEdges.

Variable E : Env.

Lemma get_remote_plugin_data_no_data (w : world) :
  get_plugin_data E (trace w) (remote_url E (this w)) = [] ->
  get_remote_plugin_data E w = Returned [] (fetched E w).
Proof.
  intros Hnone.
  destruct (get_remote_plugin_data_run E w) as (data & Hrun & Hdata).
  rewrite Hnone in Hdata. by subst data.
Qed.

Lemma update_plugins_gutestrap_data_with_data (value0 : value) (w : world) :
  get_plugin_data E (trace w) (remote_url E (this w)) <> [] ->
  exists data : php_array,
    get_remote_plugin_data E w = Returned data (fetched E w)
    /\ update_plugins_gutestrap_data E value0 w
       = Returned (VArr data) (fetched_with_data E w).
Proof.
  intros Hdata.
  destruct (get_remote_plugin_data_run E w) as (data & Hrun & Hpopulated).
  destruct (get_plugin_data E (trace w) _) as [| h rest]; [done |].
  destruct Hpopulated as (Htruthy & _).
  exists data. split; [done |].
  unfold update_plugins_gutestrap_data, bind at 1.
  by rewrite Hrun, Htruthy.
Qed.

Lemma update_plugins_gutestrap_data_without_data (value0 : value) (w : world) :
  get_plugin_data E (trace w) (remote_url E (this w)) = [] ->
  update_plugins_gutestrap_data E value0 w = Returned value0 (fetched E w).
Proof.
  intros Hnone.
  unfold update_plugins_gutestrap_data, bind at 1.
  by rewrite (get_remote_plugin_data_no_data w Hnone).
Qed.

(** X1. When the retrieval gives nothing, [update_plugins_gutestrap_data]
    hands back the value the host passed, unchanged, and leaves the
    already-fetched flag as it was; the retrieval has still been made. *)
Theorem update_plugins_gutestrap_data_no_data (value0 : value) (w : world) :
  get_plugin_data E (trace w) (remote_url E (this w)) = [] ->
  exists w' : world,
    update_plugins_gutestrap_data E value0 w = Returned value0 w'
    /\ did_fetch_remote_data (this w') = did_fetch_remote_data (this w)
    /\ trace w' = (trace w ++ [EFetch (remote_url E (this w))])%list.
Proof.
  intros Hnone. exists (fetched E w).
  split; [by apply update_plugins_gutestrap_data_without_data | done].
Qed.

(** X2. Nothing is cached: two calls of [update_plugins_gutestrap_data] in
    a row make two retrievals from the same URL, whether or not the first
    gave data and whatever the flag was. *)
Theorem update_plugins_gutestrap_data_twice_fetches_twice (value0 : value) (w : world) :
  exists (v2 : value) (w2 : world),
    bind (update_plugins_gutestrap_data E value0) (update_plugins_gutestrap_data E) w
    = Returned v2 w2
    /\ trace w2
       = (trace w ++ [EFetch (remote_url E (this w)); EFetch (remote_url E (this w))])%list
    /\ fetches (trace w2) = 2 + fetches (trace w).
Proof.
  assert (forall v w0, exists v' w',
             update_plugins_gutestrap_data E v w0 = Returned v' w'
             /\ remote_url E (this w') = remote_url E (this w0)
             /\ trace w' = (trace w0 ++ [EFetch (remote_url E (this w0))])%list)
    as Hone.
  { intros v w0.
    destruct (get_plugin_data E (trace w0) (remote_url E (this w0))) as [| h rest] eqn:Hremote.
    - exists v, (fetched E w0). split; [| done].
      by apply update_plugins_gutestrap_data_without_data.
    - destruct (update_plugins_gutestrap_data_with_data v w0) as (data & _ & Hrun).
      { by rewrite Hremote. }
      by exists (VArr data), (fetched_with_data E w0). }
  destruct (Hone value0 w) as (v1 & w1 & Hrun1 & Hurl1 & Htrace1).
  destruct (Hone v1 w1) as (v2 & w2 & Hrun2 & _ & Htrace2).
  exists v2, w2. unfold bind. rewrite Hrun1. split; [exact Hrun2 |].
  assert (trace w2
          = (trace w ++ [EFetch (remote_url E (this w)); EFetch (remote_url E (this w))])%list)
    as Htrace.
  { rewrite Htrace2, Htrace1, Hurl1, <- app_assoc. done. }
  split; [exact Htrace |].
  rewrite Htrace, fetches_app. simpl. lia.
Qed.

(** X3. A remote file that parses to some headers but has no [Version]
    header still counts as a fetch with data: the flag is set and the
    descriptor comes back, with [version] and [new_version] null. *)
Theorem update_plugins_gutestrap_data_missing_version (value0 : value) (w : world) :
  get_plugin_data E (trace w) (remote_url E (this w)) <> [] ->
  assoc "Version" (get_plugin_data E (trace w) (remote_url E (this w))) = None ->
  exists (data : php_array) (w' : world),
    update_plugins_gutestrap_data E value0 w = Returned (VArr data) w'
    /\ did_fetch_remote_data (this w') = true
    /\ index data "version" = VNull
    /\ index data "new_version" = VNull
    /\ index data "slug" = VStr "gutestrap".
Proof.
  intros Hdata Hversion.
  destruct (update_plugins_gutestrap_data_with_data value0 w Hdata) as (data & Hfetch & Hrun).
  exists data, (fetched_with_data E w). split; [done |]. split; [done |].
  destruct (get_remote_plugin_data_run E w) as (data' & Hfetch' & Hpopulated).
  rewrite Hfetch in Hfetch'. injection Hfetch' as <-.
  destruct (get_plugin_data E (trace w) _) as [| h rest] eqn:Hremote; [done |].
  destruct Hpopulated as (_ & Hslug & _ & _ & Hv & Hnv & _).
  rewrite Hv, Hnv, Hslug. unfold header. by rewrite Hversion.
Qed.

End FetchEdges.

(** ** More on [modify_plugins_transient] *)

Section TransientEdges.

Variable E : Env.

Lemma entry_response_other (k k' : string) (d : value) (t : update_plugins) :
  k' <> k ->
  entry (response (unset_no_update k (set_response k d t))) k' = entry (response t) k'.
Proof.
  intros Hother. simpl. rewrite lookup_insert_ne; [| done].
  by destruct (response t).
Qed.

Lemma entry_no_update_other (k k' : string) (d : value) (t : update_plugins) :
  k' <> k ->
  entry (no_update (unset_no_update k (set_response k d t))) k' = entry (no_update t) k'.
Proof.
  intros Hother. simpl. destruct (no_update t) as [m |]; simpl; [| done].
  by rewrite lookup_delete_ne.
Qed.

(** X4. Whatever it decides, [modify_plugins_transient] returns, and it
    only ever touches the plugin's own two entries: [last_checked] and
    [checked] are as given, and so is every other plugin's entry in
    [response] and in [no_update]. *)
Theorem modify_plugins_transient_other_plugins (t : update_plugins) (w : world) :
  exists (t' : update_plugins) (w' : world),
    modify_plugins_transient E t w = Returned t' w'
    /\ last_checked t' = last_checked t
    /\ checked t' = checked t
    /\ forall k : string,
         k <> GUTESTRAP_PLUGIN_BASENAME E ->
         entry (response t') k = entry (response t) k
         /\ entry (no_update t') k = entry (no_update t) k.
Proof.
  destruct (guards_pass E t w) eqn:Hguards.
  - destruct (modify_plugins_transient_acts E t w Hguards) as (data & _ & Hrun).
    destruct (0 <? _)%Z.
    + eexists; eexists. split; [exact Hrun |]. split; [done |]. split; [done |].
      intros k Hother. split.
      * by apply entry_response_other.
      * by apply entry_no_update_other.
    + exists t; eexists. by split; [exact Hrun |].
  - exists t, w. by split; [apply modify_plugins_transient_skips |].
Qed.

(** X5. [modify_plugins_transient] never sets the already-fetched flag and
    asks the host for at most one thing, a single retrieval: the world
    after the call is the world before it, or that world after one fetch. *)
Theorem modify_plugins_transient_at_most_one_fetch (t : update_plugins) (w : world) :
  exists (t' : update_plugins) (w' : world),
    modify_plugins_transient E t w = Returned t' w'
    /\ this w' = this w
    /\ (w' = w \/ w' = fetched E w).
Proof.
  destruct (guards_pass E t w) eqn:Hguards.
  - destruct (modify_plugins_transient_acts E t w Hguards) as (data & _ & Hrun).
    eexists; exists (fetched E w). split; [exact Hrun |]. split; [done | by right].
  - exists t, w. split; [by apply modify_plugins_transient_skips |].
    split; [done | by left].
Qed.

(** X6. A failed retrieval marks nothing: when the retrieval gives no
    headers, the comparison receives the empty string as the remote
    version, and with a [version_compare] that does not put the empty
    version above the installed one the aggregate comes back as given. *)
Theorem modify_plugins_transient_no_data (t : update_plugins) (w : world) :
  get_plugin_data E (trace w) (remote_url E (this w)) = [] ->
  (version_compare E EmptyString (header_text (gutestrap_plugin_data E) "Version") <= 0)%Z ->
  exists w' : world, modify_plugins_transient E t w = Returned t w'.
Proof.
  intros Hnone Hempty.
  destruct (guards_pass E t w) eqn:Hguards.
  - destruct (modify_plugins_transient_acts E t w Hguards) as (data & _ & Hrun).
    rewrite Hnone in Hrun. change (header_text [] "Version") with EmptyString in Hrun.
    apply Z.ltb_ge in Hempty. rewrite Hempty in Hrun. by eexists.
  - exists w. by apply modify_plugins_transient_skips.
Qed.

End TransientEdges.

(** ** More on [modify_plugin_details] *)

Section DetailsEdges.

Variable E : Env.

Lemma index_array_set_eq (a : php_array) (k : string) (v : value) :
  index (array_set a k v) k = v.
Proof.
  unfold index. induction a as [| [k' v'] rest IH]; simpl.
  - by rewrite String.eqb_refl.
  - destruct (String.eqb k k') eqn:Hk; simpl; by rewrite Hk.
Qed.

Lemma index_array_set_ne (a : php_array) (k k' : string) (v : value) :
  k' <> k -> index (array_set a k v) k' = index a k'.
Proof.
  intros Hother. unfold index.
  induction a as [| [k0 v0] rest IH]; simpl.
  - apply String.eqb_neq in Hother. by rewrite Hother.
  - destruct (String.eqb k k0) eqn:Hk; simpl.
    + apply String.eqb_eq in Hk. subst k0.
      apply String.eqb_neq in Hother. by rewrite Hother.
    + destruct (String.eqb k' k0); [done | exact IH].
Qed.

Lemma array_set_missing (a : php_array) (k : string) (v : value) :
  assoc k a = None -> array_set a k v = (a ++ [(k, v)])%list.
Proof.
  induction a as [| [k' v'] rest IH]; simpl; [done |].
  destruct (String.eqb k k'); [done |].
  intros Hrest. by rewrite IH.
Qed.

(** X7. A details request for another slug, for no slug at all, or with
    another action passes through: the host's [$result] comes back as
    given and nothing is fetched. *)
Theorem modify_plugin_details_other_request (result action args : value) (w : world) :
  prop args "slug" <> VStr "gutestrap" \/ action <> VStr "plugin_information" ->
  modify_plugin_details E result action args w = Returned result w
  /\ modify_plugin_details E result action VNull w = Returned result w.
Proof.
  intros Hother. split.
  - by apply modify_plugin_details_pass_through.
  - apply modify_plugin_details_pass_through. by left.
Qed.

(** X8. A details request for the plugin itself makes one retrieval,
    whatever the already-fetched flag says, and ignores the [$result] it
    was handed: the object returned carries every field of the fetched
    descriptor unchanged, plus [sections] with the description of the
    installed plugin, the installation text and the changelog link. *)
Theorem modify_plugin_details_decorated (result args : value) (w : world) :
  prop args "slug" = VStr "gutestrap" ->
  exists (data : php_array) (v : value) (installation changelog : string),
    get_remote_plugin_data E w = Returned data (fetched E w)
    /\ (forall result' : value,
          modify_plugin_details E result' (VStr "plugin_information") args w
          = Returned v (fetched E w))
    /\ (forall k : string, k <> "sections" -> prop v k = index data k)
    /\ prop v "sections"
       = VArr [ ("description", header (gutestrap_plugin_data E) "Description");
                ("installation", VStr installation);
                ("changelog", VStr changelog) ].
Proof.
  intros Hslug.
  destruct (get_remote_plugin_data_run E w) as (data & Hrun & _).
  exists data. eexists; eexists; eexists. split; [done |].
  split; [| split].
  - intros result'. unfold modify_plugin_details. rewrite Hslug. simpl.
    unfold bind at 1. rewrite Hrun. run_php. reflexivity.
  - intros k Hother. simpl. by apply index_array_set_ne.
  - simpl. apply index_array_set_eq.
Qed.

End DetailsEdges.

(** ** More on [post_install] *)

Section PostInstallEdges.

Variable E : Env.

(** X9. The plugin's own install, as the caller sees it: the flag comes
    back, the singleton is untouched, and the host has been asked for one
    move, from [$result['destination']] to the plugin folder under
    [WP_PLUGIN_DIR], followed by an activation exactly when the plugin was
    active before the call; whether the move succeeded changes nothing. *)
Theorem post_install_own_plugin
    (response0 : bool) (_hook_extra result : php_array) (w : world) :
  index _hook_extra "plugin" = VStr (GUTESTRAP_PLUGIN_BASENAME E) ->
  exists (moved : bool) (w' : world),
    post_install E response0 _hook_extra result w = Returned response0 w'
    /\ this w' = this w
    /\ trace w'
       = (trace w
          ++ EMove (index result "destination")
               (WP_PLUGIN_DIR E +:+ DIRECTORY_SEPARATOR E
                +:+ dirname E (GUTESTRAP_PLUGIN_BASENAME E))
               moved
             :: (if is_plugin_active E (trace w) (GUTESTRAP_PLUGIN_BASENAME E)
                 then [EActivate (GUTESTRAP_PLUGIN_BASENAME E)] else []))%list
    /\ fetches (trace w') = fetches (trace w).
Proof.
  intros Hown.
  pose proof (post_install_body_own_plugin E response0 _hook_extra result w Hown) as Hbody.
  eexists; eexists. split; [| split; [| split]].
  - unfold post_install, bind. rewrite Hbody. reflexivity.
  - reflexivity.
  - reflexivity.
  - simpl. rewrite fetches_app. simpl.
    destruct (is_plugin_active E (trace w) _); simpl; lia.
Qed.

(** X10. A result array with no [destination] key is not guarded against:
    on the plugin's own install the move is still requested, with a null
    source, and the method's copy of [$result] gains the key. *)
Theorem post_install_missing_destination
    (response0 : bool) (_hook_extra result : php_array) (w : world) :
  index _hook_extra "plugin" = VStr (GUTESTRAP_PLUGIN_BASENAME E) ->
  assoc "destination" result = None ->
  exists (moved : bool) (activation : list event) (w' : world),
    post_install_body E response0 _hook_extra result w
    = Returned
        (response0,
         (result ++ [("destination",
                      VStr (WP_PLUGIN_DIR E +:+ DIRECTORY_SEPARATOR E
                            +:+ dirname E (GUTESTRAP_PLUGIN_BASENAME E)))])%list)
        w'
    /\ trace w'
       = (trace w
          ++ EMove VNull
               (WP_PLUGIN_DIR E +:+ DIRECTORY_SEPARATOR E
                +:+ dirname E (GUTESTRAP_PLUGIN_BASENAME E))
               moved
             :: activation)%list.
Proof.
  intros Hown Hmissing.
  pose proof (post_install_body_own_plugin E response0 _hook_extra result w Hown) as Hbody.
  rewrite (array_set_missing result "destination" _ Hmissing) in Hbody.
  unfold index in Hbody at 1 2. rewrite Hmissing in Hbody.
  eexists; eexists; eexists. split; [exact Hbody | reflexivity].
Qed.

End PostInstallEdges.

(** ** The singleton and sequences of hook calls *)

Section Hooks.

Variable E : Env.

Lemma evolves_refl (w : world) : evolves 0 w w.
Proof.
  split; [done |]. split; [done |]. split; [done |].
  exists []. split; [by rewrite app_nil_r | done].
Qed.

Lemma evolves_weaken (n m : nat) (w w' : world) :
  n <= m -> evolves n w w' -> evolves m w w'.
Proof.
  intros Hle (Hbranch & Hbase & Hflag & evs & Htrace & Hcount).
  split; [done |]. split; [done |]. split; [done |].
  exists evs. split; [done | lia].
Qed.

Lemma evolves_trans (n m : nat) (w1 w2 w3 : world) :
  evolves n w1 w2 -> evolves m w2 w3 -> evolves (n + m) w1 w3.
Proof.
  intros (Hbranch1 & Hbase1 & Hflag1 & evs1 & Htrace1 & Hcount1)
         (Hbranch2 & Hbase2 & Hflag2 & evs2 & Htrace2 & Hcount2).
  split; [congruence |]. split; [congruence |]. split; [auto |].
  exists (evs1 ++ evs2)%list. split.
    + by rewrite Htrace2, Htrace1, app_assoc.
    + rewrite fetches_app. lia.
Qed.

Lemma evolves_fetched (w : world) : evolves 1 w (fetched E w).
Proof.
  split; [done |]. split; [done |]. split; [done |].
  eexists. split; [reflexivity | simpl; lia].
Qed.

Lemma evolves_fetched_with_data (w : world) : evolves 1 w (fetched_with_data E w).
Proof.
  split; [done |]. split; [done |]. split; [done |].
  eexists. split; [reflexivity | simpl; lia].
Qed.

Lemma post_install_skips (response0 : bool) (_hook_extra result : php_array) (w : world) :
  index _hook_extra "plugin" <> VStr (GUTESTRAP_PLUGIN_BASENAME E) ->
  post_install E response0 _hook_extra result w = Returned response0 w.
Proof.
  intros Hother.
  unfold post_install, post_install_body. run_php.
  destruct (isset _ && identical_str _ _) eqn:Hguard; [| done].
  by apply guard_own_plugin in Hguard.
Qed.

(** Each hook returns and moves the world on by at most one retrieval. *)
Lemma apply_hook_evolves (c : hook_call) (w : world) :
  exists w' : world, apply_hook E c w = Returned tt w' /\ evolves 1 w w'.
Proof.
  destruct c as [value0 | transient | result action args | response0 _hook_extra result];
    unfold apply_hook, bind.
  - destruct (get_plugin_data E (trace w) (remote_url E (this w))) as [| h rest] eqn:Hremote.
    + rewrite (update_plugins_gutestrap_data_without_data E value0 w Hremote).
      eexists. split; [reflexivity | apply evolves_fetched].
    + destruct (update_plugins_gutestrap_data_with_data E value0 w) as (data & _ & ->).
      { by rewrite Hremote. }
      eexists. split; [reflexivity | apply evolves_fetched_with_data].
  - destruct (guards_pass E transient w) eqn:Hguards.
    + destruct (modify_plugins_transient_acts E transient w Hguards) as (data & _ & ->).
      eexists. split; [reflexivity | apply evolves_fetched].
    + rewrite (modify_plugins_transient_skips E transient w Hguards).
      eexists. split; [reflexivity |].
      apply (evolves_weaken 0); [lia | apply evolves_refl].
  - destruct (identical_str (prop args "slug") "gutestrap") eqn:Hslug.
    + destruct (identical_str action "plugin_information") eqn:Haction.
      * apply identical_str_true in Hslug, Haction. subst action.
        destruct (modify_plugin_details_own_slug E result args w Hslug)
          as (data & sections & _ & -> & _).
        eexists. split; [reflexivity | apply evolves_fetched].
      * rewrite (modify_plugin_details_pass_through E result action args w).
        -- eexists. split; [reflexivity |].
           apply (evolves_weaken 0); [lia | apply evolves_refl].
        -- right. intros ->. simpl in Haction. discriminate Haction.
    + rewrite (modify_plugin_details_pass_through E result action args w).
      * eexists. split; [reflexivity |].
        apply (evolves_weaken 0); [lia | apply evolves_refl].
      * left. intros Hown. apply identical_str_true in Hown. congruence.
  - destruct (identical_str (index _hook_extra "plugin") (GUTESTRAP_PLUGIN_BASENAME E))
      eqn:Hown.
    + apply identical_str_true in Hown.
      unfold post_install, bind.
      rewrite (post_install_body_own_plugin E response0 _hook_extra result w Hown).
      eexists. split; [reflexivity |].
      split; [done |]. split; [done |]. split; [done |].
      eexists. split; [reflexivity |].
      destruct (is_plugin_active E (trace w) _); simpl; lia.
    + rewrite (post_install_skips response0 _hook_extra result w).
      2: { intros Hmatch. apply identical_str_true in Hmatch. congruence. }
      eexists. split; [reflexivity |].
      apply (evolves_weaken 0); [lia | apply evolves_refl].
Qed.

End Hooks.

Section HookSequences.

Variable E : Env.

Lemma apply_hooks_evolves (calls : list hook_call) (w : world) :
  exists w' : world,
    apply_hooks E calls w = Returned tt w' /\ evolves (length calls) w w'.
Proof.
  revert w. induction calls as [| c rest IH]; intros w; simpl.
  - exists w. split; [done | apply evolves_refl].
  - destruct (apply_hook_evolves E c w) as (w1 & Hrun1 & Hstep).
    destruct (IH w1) as (w2 & Hrun2 & Hrest).
    exists w2. unfold bind. rewrite Hrun1. split; [exact Hrun2 |].
    apply (evolves_trans 1 (length rest) w w1 w2 Hstep Hrest).
Qed.




(** X12. The flag outlives the cycle: once a fetch has given data to
    [update_plugins_gutestrap_data], then after any further hook calls in
    the same process [modify_plugins_transient] still returns every
    aggregate as given, without a retrieval. *)
Theorem modify_plugins_transient_stale_flag
    (value0 : value) (calls : list hook_call) (t : update_plugins) (w : world) :
  get_plugin_data E (trace w) (remote_url E (this w)) <> [] ->
  exists w' : world,
    apply_hooks E (UpdatePluginsGutestrap value0 :: calls) w = Returned tt w'
    /\ modify_plugins_transient E t w' = Returned t w'.
Proof.
  intros Hdata.
  destruct (update_plugins_gutestrap_data_with_data E value0 w Hdata) as (data & _ & Hrun).
  destruct (apply_hooks_evolves calls (fetched_with_data E w))
    as (w' & Hrest & _ & _ & Hflag & _).
  exists w'. split.
  - simpl. unfold bind. by rewrite Hrun.
  - apply modify_plugins_transient_skips.
    unfold guards_pass. rewrite Hflag; [| done]. simpl. by rewrite andb_false_r.
Qed.

End HookSequences.

(** ** The singleton accessor *)

Lemma instances_filled (n : nat) (p : process) (self : Gutestrap_Update) :
  instance_slot p = Some self -> instances n p = p.
Proof.
  intros Hfilled. induction n as [| n IH]; simpl; [done |].
  unfold instance. by rewrite Hfilled.
Qed.

(** X13. [instance] is a singleton accessor: any number of calls leaves
    the process as one call does, hands back the same object with the flag
    it has by then, and registers the four filters once only. *)
Theorem instance_once (n : nat) (p : process) :
  instances (S n) p = snd (instance p)
  /\ instance (snd (instance p)) = (fst (instance p), snd (instance p))
  /\ instance_slot (snd (instance p)) = Some (fst (instance p))
  /\ (instance_slot p = None ->
      filters (instances (S n) p) = (filters p ++ registrations)%list)
  /\ (forall self : Gutestrap_Update,
        instance_slot p = Some self ->
        fst (instance p) = self /\ filters (instances (S n) p) = filters p).
Proof.
  assert (instance_slot (snd (instance p)) = Some (fst (instance p))) as Hfilled.
  { unfold instance. by destruct (instance_slot p) eqn:Hslot. }
  assert (instances (S n) p = snd (instance p)) as Hsame.
  { simpl. by apply (instances_filled n _ _ Hfilled). }
  split; [exact Hsame |]. split; [| split; [exact Hfilled |]; split].
  - unfold instance at 1. by rewrite Hfilled.
  - intros Hempty. rewrite Hsame. unfold instance. by rewrite Hempty.
  - intros self Hself. rewrite Hsame. unfold instance. by rewrite Hself.
Qed.

(** ** [toNumber] *)

(** X14. Given the two guarantees of the builtins, [toNumber] ends within
    three calls for every value and fallback. It throws exactly when
    [Number(value)] throws, or is NaN with [Number(fallback)] throwing;
    otherwise it returns the converted value when that is not NaN, else
    the converted fallback when that is not NaN, else [0]. It never
    returns NaN, and more fuel changes nothing. *)
Theorem toNumber_never_NaN (J : JS) (value0 fallback : jsvalue J) (extra : nat) :
  JS_laws J ->
  toNumber J (3 + extra) value0 fallback = Some (toNumber_result J value0 fallback)
  /\ forall n : number J,
       toNumber_result J value0 fallback = Normal n -> isNaN J n = false.
Proof.
  intros [Hnumber Hzero]. unfold toNumber_result. simpl.
  destruct (Number J value0) as [n |]; [| by split].
  destruct (isNaN J n) eqn:Hvalue.
  - destruct (Number J fallback) as [m |]; [| by split].
    destruct (isNaN J m) eqn:Hfallback.
    + rewrite Hnumber, Hzero. split; [done |]. by intros ? [= <-].
    + split; [done |]. by intros ? [= <-].
  - split; [done |]. by intros ? [= <-].
Qed.

Lemma toNumber_never_NaN_witness :
  toNumber sample_js (3 + 0) NotANumber ASymbol
  = Some (toNumber_result sample_js NotANumber ASymbol)
  /\ forall n : option Z,
       toNumber_result sample_js NotANumber ASymbol = Normal n ->
       isNaN sample_js n = false.
Proof.
  apply (toNumber_never_NaN sample_js NotANumber ASymbol 0).
  split; [by intros [z |] | reflexivity].
Defined.

Example toNumber_samples :
  toNumber sample_js 3 (AnInteger 7) NotANumber = Some (Normal (Some 7%Z))
  /\ toNumber sample_js 3 NotANumber (AnInteger 5) = Some (Normal (Some 5%Z))
  /\ toNumber sample_js 3 NotANumber NotANumber = Some (Normal (Some 0%Z))
  /\ toNumber sample_js 3 ASymbol (AnInteger 5) = Some Abrupt
  /\ toNumber sample_js 3 NotANumber ASymbol = Some Abrupt
  /\ toNumber sample_js 2 NotANumber NotANumber = None.
Proof. repeat split. Qed.

(** ** The case helpers of the gulpfile *)

Module GulpFacts.
Import Gulp.

Local Open Scope nat_scope.

Ltac ascii_cases c := destruct c as [[] [] [] [] [] [] [] []].

Lemma is_upper_to_lower (c : Ascii.ascii) : is_upper (to_lower c) = false.
Proof. ascii_cases c; reflexivity. Qed.

Lemma is_dash_to_lower (c : Ascii.ascii) : is_dash (to_lower c) = is_dash c.
Proof. ascii_cases c; reflexivity. Qed.

Lemma is_space_to_lower (c : Ascii.ascii) : is_space (to_lower c) = is_space c.
Proof. ascii_cases c; reflexivity. Qed.

Lemma is_dash_to_upper (c : Ascii.ascii) : is_dash (to_upper c) = is_dash c.
Proof. ascii_cases c; reflexivity. Qed.

Lemma is_space_to_upper (c : Ascii.ascii) : is_space (to_upper c) = is_space c.
Proof. ascii_cases c; reflexivity. Qed.

Lemma to_lower_not_upper (c : Ascii.ascii) : is_upper c = false -> to_lower c = c.
Proof. unfold to_lower. by intros ->. Qed.

Lemma space_not_upper (c : Ascii.ascii) : is_space c = true -> is_upper c = false.
Proof. ascii_cases c; (reflexivity || discriminate). Qed.

Lemma space_32 (c : Ascii.ascii) : (code c =? 32) = true -> c = " "%char.
Proof. ascii_cases c; (reflexivity || discriminate). Qed.

Lemma all_chars_app (p : Ascii.ascii -> bool) (a b : string) :
  all_chars p (a +:+ b) = all_chars p a && all_chars p b.
Proof. induction a as [| c a IH]; simpl; [done |]. by rewrite IH, andb_assoc. Qed.

Lemma all_chars_and (p q : Ascii.ascii -> bool) (s : string) :
  all_chars (fun c => p c && q c) s = all_chars p s && all_chars q s.
Proof.
  induction s as [| c s IH]; simpl; [done |].
  rewrite IH. destruct (p c), (q c), (all_chars p s), (all_chars q s); reflexivity.
Qed.

(** What a replacement of runs leaves: the replacement and the characters
    outside the class. *)
Lemma replace_runs_removes (class q : Ascii.ascii -> bool) (rep : string) (b : bool) (s : string) :
  all_chars q rep = true ->
  (forall c, class c = false -> q c = true) ->
  all_chars q (replace_runs class rep b s) = true.
Proof.
  intros Hrep Hout. revert b.
  induction s as [| c s IH]; intros b; simpl; [done |].
  destruct (class c) eqn:Hc.
  - destruct b; [apply IH |]. rewrite all_chars_app, Hrep. apply IH.
  - simpl. rewrite (Hout c Hc). apply IH.
Qed.

Lemma replace_runs_keeps (class q : Ascii.ascii -> bool) (rep : string) (b : bool) (s : string) :
  all_chars q rep = true ->
  all_chars q s = true ->
  all_chars q (replace_runs class rep b s) = true.
Proof.
  intros Hrep. revert b.
  induction s as [| c s IH]; intros b; simpl; [done |].
  intros [Hc Hs]%andb_prop.
  destruct (class c).
  - destruct b; [by apply IH |]. rewrite all_chars_app, Hrep. by apply IH.
  - simpl. rewrite Hc. by apply IH.
Qed.

Lemma trim_start_keeps (q : Ascii.ascii -> bool) (s : string) :
  all_chars q s = true -> all_chars q (trim_start s) = true.
Proof.
  induction s as [| c s IH]; simpl; [done |].
  intros Hall. destruct (is_space c); [| done].
  apply andb_prop in Hall as [_ Hs]. by apply IH.
Qed.

Lemma trim_end_keeps (q : Ascii.ascii -> bool) (s : string) :
  all_chars q s = true -> all_chars q (trim_end s) = true.
Proof.
  induction s as [| c s IH]; simpl; [done |].
  intros [Hc Hs]%andb_prop. specialize (IH Hs).
  destruct (trim_end s) as [| c' kept].
  - destruct (is_space c); simpl; [done | by rewrite Hc].
  - change (q c && all_chars q (String c' kept) = true). by rewrite Hc.
Qed.

Lemma trim_keeps (q : Ascii.ascii -> bool) (s : string) :
  all_chars q s = true -> all_chars q (trim s) = true.
Proof. intros Hall. by apply trim_end_keeps, trim_start_keeps. Qed.

Lemma toLowerCase_keeps (q : Ascii.ascii -> bool) (s : string) :
  (forall c, q (to_lower c) = q c) ->
  all_chars q (toLowerCase s) = all_chars q s.
Proof.
  intros Hq. induction s as [| c s IH]; simpl; [done |]. by rewrite Hq, IH.
Qed.

Lemma upperCaseWords_from_keeps (q : Ascii.ascii -> bool) (b : bool) (s : string) :
  (forall c, q (to_upper c) = q c) ->
  all_chars q (upperCaseWords_from b s) = all_chars q s.
Proof.
  intros Hq. revert b.
  induction s as [| c s IH]; intros b; simpl; [done |].
  rewrite IH. by destruct (is_word c && negb b); rewrite ?Hq.
Qed.

Lemma lowerCaseFirst_keeps (q : Ascii.ascii -> bool) (s : string) :
  (forall c, q (to_lower c) = q c) ->
  all_chars q (lowerCaseFirst s) = all_chars q s.
Proof. intros Hq. destruct s as [| c s]; simpl; [done |]. by rewrite Hq. Qed.

Lemma stripCase_no_dash (str : string) : all_chars not_dash (stripCase str) = true.
Proof.
  unfold stripCase.
  rewrite toLowerCase_keeps; [| intros c; unfold not_dash; by rewrite is_dash_to_lower].
  apply trim_keeps, replace_runs_keeps; [done |].
  apply replace_runs_removes; [done |].
  intros c Hc. unfold not_dash. by rewrite Hc.
Qed.

Lemma camelCase_joined (str : string) : all_chars is_joined (camelCase str) = true.
Proof.
  unfold is_joined.
  change (all_chars (fun c => not_space c && not_dash c) (camelCase str) = true).
  rewrite all_chars_and. apply andb_true_intro. unfold camelCase. split.
  - rewrite lowerCaseFirst_keeps;
      [| intros c; unfold not_space; by rewrite is_space_to_lower].
    unfold pascalCase. apply replace_runs_removes; [done |].
    intros c Hc. unfold not_space. by rewrite Hc.
  - rewrite lowerCaseFirst_keeps;
      [| intros c; unfold not_dash; by rewrite is_dash_to_lower].
    unfold pascalCase. apply replace_runs_keeps; [done |].
    unfold titleCase, upperCaseWords.
    rewrite upperCaseWords_from_keeps;
      [| intros c; unfold not_dash; by rewrite is_dash_to_upper].
    apply stripCase_no_dash.
Qed.

Lemma space_to_lower (c : Ascii.ascii) : is_space c = true -> to_lower c = c.
Proof. intros Hspace. by apply to_lower_not_upper, space_not_upper. Qed.

Lemma space_before_capitals_id (b : bool) (s : string) :
  all_chars not_upper s = true -> space_before_capitals b s = s.
Proof.
  revert b. induction s as [| c s IH]; intros b; simpl; [done |].
  unfold not_upper at 1. intros [Hc Hs]%andb_prop.
  apply negb_true_iff in Hc. rewrite Hc. by rewrite IH.
Qed.

Lemma replace_runs_id (class : Ascii.ascii -> bool) (rep : string) (b : bool) (s : string) :
  all_chars (fun c => negb (class c)) s = true -> replace_runs class rep b s = s.
Proof.
  revert b. induction s as [| c s IH]; intros b; simpl; [done |].
  intros [Hc Hs]%andb_prop. apply negb_true_iff in Hc. rewrite Hc. by rewrite IH.
Qed.

Lemma spaced_replace_runs (b : bool) (s : string) :
  spaced b (replace_runs is_space " " b s) = true.
Proof.
  revert b. induction s as [| c s IH]; intros b; simpl; [done |].
  destruct (is_space c) eqn:Hc.
  - destruct b; [apply IH |]. simpl. apply IH.
  - simpl. rewrite Hc. apply IH.
Qed.

Lemma replace_spaces_id (b : bool) (s : string) :
  spaced b s = true -> replace_runs is_space " " b s = s.
Proof.
  revert b. induction s as [| c s IH]; intros b; simpl; [done |].
  destruct (is_space c) eqn:Hc.
  - intros [[H32 Hb]%andb_prop Hs]%andb_prop.
    apply negb_true_iff in Hb. subst b.
    apply space_32 in H32. subst c. simpl. by rewrite IH.
  - intros Hs. by rewrite IH.
Qed.

Lemma spaced_trim_start (b b' : bool) (s : string) :
  spaced b s = true -> spaced b' (trim_start s) = true.
Proof.
  revert b. induction s as [| c s IH]; intros b; simpl; [done |].
  destruct (is_space c) eqn:Hc.
  - intros [_ Hs]%andb_prop. by apply (IH true).
  - intros Hs. simpl. by rewrite Hc.
Qed.

Lemma spaced_trim_end (b : bool) (s : string) :
  spaced b s = true -> spaced b (trim_end s) = true.
Proof.
  revert b. induction s as [| c s IH]; intros b; [done |].
  intros Hs. simpl in Hs. simpl trim_end.
  destruct (is_space c) eqn:Hc.
  - apply andb_prop in Hs as [Hhead Hrest]. specialize (IH true Hrest).
    destruct (trim_end s) as [| c' kept]; [done |].
    simpl spaced at 1. rewrite Hc. by rewrite Hhead.
  - specialize (IH false Hs).
    destruct (trim_end s) as [| c' kept]; simpl spaced at 1; by rewrite Hc.
Qed.

Lemma spaced_toLowerCase (b : bool) (s : string) :
  spaced b (toLowerCase s) = spaced b s.
Proof.
  revert b. induction s as [| c s IH]; intros b; simpl; [done |].
  rewrite is_space_to_lower. destruct (is_space c) eqn:Hc.
  - by rewrite (space_to_lower c Hc), IH.
  - apply IH.
Qed.

Lemma toLowerCase_id (s : string) :
  all_chars not_upper s = true -> toLowerCase s = s.
Proof.
  induction s as [| c s IH]; simpl; [done |].
  unfold not_upper at 1. intros [Hc Hs]%andb_prop. apply negb_true_iff in Hc.
  by rewrite (to_lower_not_upper c Hc), IH.
Qed.

Lemma toLowerCase_not_upper (s : string) : all_chars not_upper (toLowerCase s) = true.
Proof.
  induction s as [| c s IH]; simpl; [done |].
  unfold not_upper at 1. by rewrite is_upper_to_lower.
Qed.

Lemma trim_start_toLowerCase (s : string) :
  trim_start (toLowerCase s) = toLowerCase (trim_start s).
Proof.
  induction s as [| c s IH]; simpl; [done |].
  rewrite is_space_to_lower. by destruct (is_space c).
Qed.

Lemma trim_end_toLowerCase (s : string) :
  trim_end (toLowerCase s) = toLowerCase (trim_end s).
Proof.
  induction s as [| c s IH]; simpl; [done |].
  rewrite IH, is_space_to_lower.
  destruct (trim_end s) as [| c' kept]; simpl; [by destruct (is_space c) | done].
Qed.

Lemma starts_clean_trim_start (s : string) : starts_clean (trim_start s) = true.
Proof.
  induction s as [| c s IH]; simpl; [done |].
  destruct (is_space c) eqn:Hc; [done |]. simpl. by rewrite Hc.
Qed.

Lemma starts_clean_trim_end (s : string) :
  starts_clean s = true -> starts_clean (trim_end s) = true.
Proof.
  destruct s as [| c s]; simpl; [done |].
  intros Hc. apply negb_true_iff in Hc.
  destruct (trim_end s); rewrite ?Hc; simpl; by rewrite Hc.
Qed.

Lemma trim_start_clean (s : string) : starts_clean s = true -> trim_start s = s.
Proof.
  destruct s as [| c s]; simpl; [done |].
  intros Hc. apply negb_true_iff in Hc. by rewrite Hc.
Qed.

Lemma trim_end_cons (c : Ascii.ascii) (s : string) :
  trim_end (String c s)
  = match trim_end s with
    | EmptyString => if is_space c then EmptyString else String c EmptyString
    | kept => String c kept
    end.
Proof. reflexivity. Qed.

Lemma trim_end_trim_end (s : string) : trim_end (trim_end s) = trim_end s.
Proof.
  induction s as [| c s IH]; [done |].
  rewrite trim_end_cons.
  destruct (trim_end s) as [| c' kept] eqn:Hkept.
  - destruct (is_space c) eqn:Hc; simpl; [done | by rewrite Hc].
  - by rewrite trim_end_cons, IH.
Qed.

Lemma trim_trim (s : string) : trim (trim s) = trim s.
Proof.
  unfold trim.
  rewrite (trim_start_clean (trim_end (trim_start s))).
  - apply trim_end_trim_end.
  - apply starts_clean_trim_end, starts_clean_trim_start.
Qed.

(** X15. For an ASCII string, [camelCase] leaves no white space,
    underscore or hyphen in its result, and the result does not begin with
    a capital letter. *)
Theorem camelCase_has_no_separator (str : string) :
  all_chars is_ascii str = true ->
  all_chars is_joined (camelCase str) = true
  /\ match camelCase str with
     | EmptyString => True
     | String c _ => is_upper c = false
     end.
Proof.
  intros _. split; [apply camelCase_joined |].
  unfold camelCase. destruct (pascalCase str) as [| c rest]; simpl; [done |].
  apply is_upper_to_lower.
Qed.

(** X16. For an ASCII string, [stripCase] is idempotent: its result has
    no capital, no underscore or hyphen, only single spaces and none at
    either end, so a second pass changes nothing. *)
Theorem stripCase_idempotent (str : string) :
  all_chars is_ascii str = true ->
  stripCase (stripCase str) = stripCase str
  /\ all_chars not_upper (stripCase str) = true
  /\ all_chars not_dash (stripCase str) = true
  /\ spaced false (stripCase str) = true
  /\ trim (stripCase str) = stripCase str.
Proof.
  intros _.
  assert (spaced false (stripCase str) = true) as Hspaced.
  { unfold stripCase, trim. rewrite spaced_toLowerCase.
    apply spaced_trim_end, (spaced_trim_start false), spaced_replace_runs. }
  assert (trim (stripCase str) = stripCase str) as Htrim.
  { unfold stripCase.
    set (y := replace_runs is_space " " false _).
    unfold trim at 1. rewrite trim_start_toLowerCase, trim_end_toLowerCase.
    change (trim_end (trim_start (trim y))) with (trim (trim y)).
    by rewrite trim_trim. }
  split; [| by repeat split; [apply toLowerCase_not_upper | apply stripCase_no_dash | ..]].
  unfold stripCase at 1.
  rewrite (space_before_capitals_id false (stripCase str)).
  2: { apply toLowerCase_not_upper. }
  rewrite (replace_runs_id is_dash " " false (stripCase str)).
  2: { apply stripCase_no_dash. }
  rewrite (replace_spaces_id false (stripCase str) Hspaced), Htrim.
  apply toLowerCase_id, toLowerCase_not_upper.
Qed.

Lemma strip_prefix_app (prefix s rest : string) :
  strip_prefix prefix s = Some rest -> s = prefix +:+ rest.
Proof.
  revert s. induction prefix as [| p prefix IH]; intros s; simpl.
  - by intros [= ->].
  - destruct s as [| c s]; [done |].
    destruct (Ascii.eqb_spec p c) as [<- |]; [| done].
    intros Hrest. by rewrite (IH s Hrest).
Qed.

(** X17. Every ASCII module identifier the bundler treats as external is
    given a global name without white space, underscore or hyphen:
    [jQuery], [wp], or [wp.] followed by the camel-cased package name. *)
Theorem external_global_name (id : string) :
  all_chars is_ascii id = true ->
  external id = true ->
  all_chars is_joined (globals id) = true
  /\ (globals id = "jQuery" \/ globals id = "wp"
      \/ exists pkg : string,
           id = "@wordpress/" +:+ pkg /\ globals id = "wp." +:+ camelCase pkg).
Proof.
  intros _. unfold external, globals.
  destruct (String.eqb id "jquery") eqn:Hjquery; [by intros _; split; [| left] |].
  destruct (String.eqb id "wp") eqn:Hwp; [by intros _; split; [| right; left] |].
  simpl. unfold wordpress_package.
  destruct (strip_prefix "@wordpress/" id) as [pkg |] eqn:Hprefix; [| done].
  destruct (no_line_terminator pkg); [| done].
  intros _. split.
  - rewrite all_chars_app. simpl. apply camelCase_joined.
  - right; right. exists pkg. split; [| done].
    by apply strip_prefix_app.
Qed.

End GulpFacts.

(** ** The further properties, on the stubbed host *)

Lemma update_plugins_gutestrap_data_no_data_witness :
  exists w' : world,
    update_plugins_gutestrap_data (Stub.env [] "2.3.0" true true) (VBool false) Stub.start
    = Returned (VBool false) w'
    /\ did_fetch_remote_data (this w') = did_fetch_remote_data (this Stub.start)
    /\ trace w'
       = (trace Stub.start
          ++ [EFetch (remote_url (Stub.env [] "2.3.0" true true) (this Stub.start))])%list.
Proof.
  apply (update_plugins_gutestrap_data_no_data (Stub.env [] "2.3.0" true true)
           (VBool false) Stub.start).
  reflexivity.
Defined.

Lemma update_plugins_gutestrap_data_missing_version_witness :
  exists (data : php_array) (w' : world),
    update_plugins_gutestrap_data (Stub.env [("Name", "GuteStrap")] "2.3.0" true true)
      (VBool false) Stub.start = Returned (VArr data) w'
    /\ did_fetch_remote_data (this w') = true
    /\ index data "version" = VNull
    /\ index data "new_version" = VNull
    /\ index data "slug" = VStr "gutestrap".
Proof.
  apply (update_plugins_gutestrap_data_missing_version
           (Stub.env [("Name", "GuteStrap")] "2.3.0" true true) (VBool false) Stub.start).
  - simpl. discriminate.
  - reflexivity.
Defined.

Lemma modify_plugins_transient_no_data_witness :
  exists w' : world,
    modify_plugins_transient (Stub.env [] "2.3.0" true true) Stub.no_update_yet Stub.start
    = Returned Stub.no_update_yet w'.
Proof.
  apply (modify_plugins_transient_no_data (Stub.env [] "2.3.0" true true)
           Stub.no_update_yet Stub.start).
  - reflexivity.
  - simpl. lia.
Defined.

Lemma modify_plugin_details_other_request_witness :
  modify_plugin_details (Stub.env Stub.remote_2_4_0 "2.3.0" true true)
    (VBool false) (VStr "plugin_information") (VObj [("slug", VStr "other-plugin")]) Stub.start
  = Returned (VBool false) Stub.start
  /\ modify_plugin_details (Stub.env Stub.remote_2_4_0 "2.3.0" true true)
       (VBool false) (VStr "plugin_information") VNull Stub.start
     = Returned (VBool false) Stub.start.
Proof.
  apply (modify_plugin_details_other_request (Stub.env Stub.remote_2_4_0 "2.3.0" true true)
           (VBool false) (VStr "plugin_information") (VObj [("slug", VStr "other-plugin")])
           Stub.start).
  left. simpl. discriminate.
Defined.

Lemma modify_plugin_details_decorated_witness :
  exists (data : php_array) (v : value) (installation changelog : string),
    get_remote_plugin_data (Stub.env Stub.remote_2_4_0 "2.3.0" true true) Stub.already_fetched
    = Returned data (fetched (Stub.env Stub.remote_2_4_0 "2.3.0" true true) Stub.already_fetched)
    /\ (forall result' : value,
          modify_plugin_details (Stub.env Stub.remote_2_4_0 "2.3.0" true true)
            result' (VStr "plugin_information") (VObj [("slug", VStr "gutestrap")])
            Stub.already_fetched
          = Returned v (fetched (Stub.env Stub.remote_2_4_0 "2.3.0" true true)
                          Stub.already_fetched))
    /\ (forall k : string, k <> "sections" -> prop v k = index data k)
    /\ prop v "sections"
       = VArr [ ("description",
                 header (gutestrap_plugin_data (Stub.env Stub.remote_2_4_0 "2.3.0" true true))
                   "Description");
                ("installation", VStr installation);
                ("changelog", VStr changelog) ].
Proof.
  apply (modify_plugin_details_decorated (Stub.env Stub.remote_2_4_0 "2.3.0" true true)
           (VBool false) (VObj [("slug", VStr "gutestrap")]) Stub.already_fetched).
  reflexivity.
Defined.

Lemma post_install_own_plugin_witness :
  exists (moved : bool) (w' : world),
    post_install (Stub.env Stub.remote_2_4_0 "2.3.0" false false) true
      [("plugin", VStr Stub.plugin)] [("destination", VStr "/tmp/extract-xyz")] Stub.start
    = Returned true w'
    /\ this w' = this Stub.start
    /\ trace w'
       = (trace Stub.start
          ++ EMove (index [("destination", VStr "/tmp/extract-xyz")] "destination")
               (WP_PLUGIN_DIR (Stub.env Stub.remote_2_4_0 "2.3.0" false false)
                +:+ DIRECTORY_SEPARATOR (Stub.env Stub.remote_2_4_0 "2.3.0" false false)
                +:+ dirname (Stub.env Stub.remote_2_4_0 "2.3.0" false false)
                      (GUTESTRAP_PLUGIN_BASENAME (Stub.env Stub.remote_2_4_0 "2.3.0" false false)))
               moved
             :: (if is_plugin_active (Stub.env Stub.remote_2_4_0 "2.3.0" false false)
                      (trace Stub.start)
                      (GUTESTRAP_PLUGIN_BASENAME (Stub.env Stub.remote_2_4_0 "2.3.0" false false))
                 then [EActivate
                         (GUTESTRAP_PLUGIN_BASENAME
                            (Stub.env Stub.remote_2_4_0 "2.3.0" false false))]
                 else []))%list
    /\ fetches (trace w') = fetches (trace Stub.start).
Proof.
  apply (post_install_own_plugin (Stub.env Stub.remote_2_4_0 "2.3.0" false false) true
           [("plugin", VStr Stub.plugin)] [("destination", VStr "/tmp/extract-xyz")]
           Stub.start).
  reflexivity.
Defined.

Lemma post_install_missing_destination_witness :
  exists (moved : bool) (activation : list event) (w' : world),
    post_install_body (Stub.env Stub.remote_2_4_0 "2.3.0" true true) true
      [("plugin", VStr Stub.plugin)] [("source", VStr "/tmp/upload")] Stub.start
    = Returned
        (true,
         ([("source", VStr "/tmp/upload")]
          ++ [("destination",
               VStr (WP_PLUGIN_DIR (Stub.env Stub.remote_2_4_0 "2.3.0" true true)
                     +:+ DIRECTORY_SEPARATOR (Stub.env Stub.remote_2_4_0 "2.3.0" true true)
                     +:+ dirname (Stub.env Stub.remote_2_4_0 "2.3.0" true true)
                           (GUTESTRAP_PLUGIN_BASENAME
                              (Stub.env Stub.remote_2_4_0 "2.3.0" true true))))])%list)
        w'
    /\ trace w'
       = (trace Stub.start
          ++ EMove VNull
               (WP_PLUGIN_DIR (Stub.env Stub.remote_2_4_0 "2.3.0" true true)
                +:+ DIRECTORY_SEPARATOR (Stub.env Stub.remote_2_4_0 "2.3.0" true true)
                +:+ dirname (Stub.env Stub.remote_2_4_0 "2.3.0" true true)
                      (GUTESTRAP_PLUGIN_BASENAME (Stub.env Stub.remote_2_4_0 "2.3.0" true true)))
               moved
             :: activation)%list.
Proof.
  apply (post_install_missing_destination (Stub.env Stub.remote_2_4_0 "2.3.0" true true) true
           [("plugin", VStr Stub.plugin)] [("source", VStr "/tmp/upload")] Stub.start);
    reflexivity.
Defined.

Lemma modify_plugins_transient_stale_flag_witness :
  exists w' : world,
    apply_hooks (Stub.env Stub.remote_2_4_0 "2.3.0" true true)
      (UpdatePluginsGutestrap (VBool false)
       :: [PluginsApi (VBool false) (VStr "plugin_information")
             (VObj [("slug", VStr "gutestrap")])])
      Stub.start
    = Returned tt w'
    /\ modify_plugins_transient (Stub.env Stub.remote_2_4_0 "2.3.0" true true)
         Stub.no_update_yet w'
       = Returned Stub.no_update_yet w'.
Proof.
  apply (modify_plugins_transient_stale_flag (Stub.env Stub.remote_2_4_0 "2.3.0" true true)
           (VBool false)
           [PluginsApi (VBool false) (VStr "plugin_information")
              (VObj [("slug", VStr "gutestrap")])]
           Stub.no_update_yet Stub.start).
  simpl. discriminate.
Defined.

Lemma camelCase_has_no_separator_witness :
  Gulp.all_chars Gulp.is_joined (Gulp.camelCase "block-editor") = true
  /\ match Gulp.camelCase "block-editor" with
     | EmptyString => True
     | String c _ => Gulp.is_upper c = false
     end.
Proof.
  apply (GulpFacts.camelCase_has_no_separator "block-editor"). reflexivity.
Defined.

Lemma stripCase_idempotent_witness :
  Gulp.stripCase (Gulp.stripCase "fooBar_baz--QUX") = Gulp.stripCase "fooBar_baz--QUX"
  /\ Gulp.all_chars Gulp.not_upper (Gulp.stripCase "fooBar_baz--QUX") = true
  /\ Gulp.all_chars Gulp.not_dash (Gulp.stripCase "fooBar_baz--QUX") = true
  /\ Gulp.spaced false (Gulp.stripCase "fooBar_baz--QUX") = true
  /\ Gulp.trim (Gulp.stripCase "fooBar_baz--QUX") = Gulp.stripCase "fooBar_baz--QUX".
Proof.
  apply (GulpFacts.stripCase_idempotent "fooBar_baz--QUX"). reflexivity.
Defined.

Lemma external_global_name_witness :
  Gulp.all_chars Gulp.is_joined (Gulp.globals "@wordpress/block-editor") = true
  /\ (Gulp.globals "@wordpress/block-editor" = "jQuery"
      \/ Gulp.globals "@wordpress/block-editor" = "wp"
      \/ exists pkg : string,
           "@wordpress/block-editor" = "@wordpress/" +:+ pkg
           /\ Gulp.globals "@wordpress/block-editor" = "wp." +:+ Gulp.camelCase pkg).
Proof.
  apply (GulpFacts.external_global_name "@wordpress/block-editor"); reflexivity.
Defined.

(** C6 on the code. The remote file cannot be read: [get_plugin_data] hands
    back its headers, every one of them empty, which is not an empty
    array. The guard of [get_remote_plugin_data] lets it through, and the
    method returns (it does not throw) a populated array (the slug, the
    plugin, the package, the icons) around an empty name and version,
    not the empty result. Only an empty array from [get_plugin_data]
    gives the empty result. *)
Theorem get_remote_plugin_data_failed_retrieval :
  (exists (data : php_array) (w' : world),
     get_remote_plugin_data (Stub.env headers_of_unreadable_file "2.3.0" true true) Stub.start
     = Returned data w'
     /\ data <> []
     /\ length data = 12
     /\ index data "slug" = VStr "gutestrap"
     /\ index data "plugin" = VStr Stub.plugin
     /\ index data "name" = VStr EmptyString
     /\ index data "version" = VStr EmptyString
     /\ index data "new_version" = VStr EmptyString
     /\ index data "package"
        = VStr "https://github.com/Denman-Digital/gutestrap/archive/main.zip")
  /\ (exists w' : world,
        get_remote_plugin_data (Stub.env [] "2.3.0" true true) Stub.start = Returned [] w').
Proof.
  split.
  - eexists; eexists. split; [lazy; reflexivity |].
    split; [discriminate |]. repeat split.
  - eexists. lazy. reflexivity.
Qed.

(** A [WP_Error] in place of the flag: the request ends at the parameter
    check, before anything is asked of the host. *)
Example serve_hooks_wp_error :
  serve_hooks (Stub.env Stub.remote_2_4_0 "2.3.0" true true)
    [ OnUpgraderPostInstall (VObj [("errors", VArr [])])
        (VArr [("plugin", VStr Stub.plugin)])
        (VArr [("destination", VStr "/tmp/extract-xyz")]) ]
    Stub.start
  = Thrown "TypeError" Stub.start.
Proof. reflexivity. Qed.
